(** * TabsAI audio_processing: format registry, WAV conversion, stem isolation

    A shallow embedding of [audio_processing/ffmpeg_utils.py],
    [audio_processing/file_utils.py] and
    [audio_processing/source_separation.py].

    Text is a Rocq [string]: a sequence of code points below 256 (ASCII and
    Latin-1), which covers the listing printed by [ffmpeg -formats].  Paths
    follow [pathlib.PurePosixPath] (CPython 3.8 - 3.13). *)

From Stdlib Require Import Ascii String List Bool Arith ZArith Lia.
From stdpp Require Import gmap strings list fin_maps.

Local Open Scope string_scope.
Local Open Scope list_scope.
Local Open Scope nat_scope.

(** ** Python text primitives *)

Module Py.

(** Characters are compared through their code point. *)
Definition ord (c : ascii) : nat := nat_of_ascii c.

(** [str.isspace] on one character, which is also the class [\s] of [re]
    on a [str] pattern: TAB LF VT FF CR, FS GS RS US, SPACE, NEL, NBSP. *)
Definition isspace (c : ascii) : bool :=
  let n := ord c in
  ((9 <=? n) && (n <=? 13)) || ((28 <=? n) && (n <=? 32))
  || (n =? 133) || (n =? 160).

(** The line boundaries of [str.splitlines]: LF VT FF CR FS GS RS NEL. *)
Definition is_linebreak (c : ascii) : bool :=
  let n := ord c in
  ((10 <=? n) && (n <=? 13)) || ((28 <=? n) && (n <=? 30)) || (n =? 133).

Definition is_cr (c : ascii) : bool := ord c =? 13.
Definition is_lf (c : ascii) : bool := ord c =? 10.

(** [str.lower] on one character (A-Z, and the Latin-1 capitals). *)
Definition lower_char (c : ascii) : ascii :=
  let n := ord c in
  if ((65 <=? n) && (n <=? 90))
     || ((192 <=? n) && (n <=? 222) && negb (n =? 215))
  then ascii_of_nat (n + 32) else c.

Fixpoint lower (s : string) : string :=
  match s with
  | EmptyString => EmptyString
  | String c s' => String (lower_char c) (lower s')
  end.

(** [str.splitlines()] (keepends false).  [cur] is the current line, kept in
    reverse; a CR LF pair is one boundary; a final line without a boundary
    is returned, an empty tail is not. *)
Fixpoint splitlines_go (cur : list ascii) (s : list ascii) : list (list ascii) :=
  match s with
  | [] => match cur with [] => [] | _ => [rev cur] end
  | c :: s' =>
      if is_linebreak c then
        match s' with
        | d :: s'' =>
            if is_cr c && is_lf d then rev cur :: splitlines_go [] s''
            else rev cur :: splitlines_go [] s'
        | [] => [rev cur]
        end
      else splitlines_go (c :: cur) s'
  end.

Definition splitlines (s : string) : list string :=
  map string_of_list_ascii (splitlines_go [] (list_ascii_of_string s)).

(** [str.split(sep)] for a one-character separator: always at least one
    field, empty fields are kept. *)
Fixpoint split_go (sep : ascii) (cur : list ascii) (s : list ascii)
  : list (list ascii) :=
  match s with
  | [] => [rev cur]
  | c :: s' =>
      if Ascii.eqb c sep then rev cur :: split_go sep [] s'
      else split_go sep (c :: cur) s'
  end.

Definition split (sep : ascii) (s : string) : list string :=
  map string_of_list_ascii (split_go sep [] (list_ascii_of_string s)).

(** [str.strip()]: whitespace removed at both ends. *)
Fixpoint lstrip_l (s : list ascii) : list ascii :=
  match s with
  | c :: s' => if isspace c then lstrip_l s' else s
  | [] => []
  end.

Definition strip (s : string) : string :=
  string_of_list_ascii
    (rev (lstrip_l (rev (lstrip_l (list_ascii_of_string s))))).

End Py.

(** ** The fragment of [re] used by the format listing parser

    A pattern is a sequence of items: a character class under a greedy
    quantifier (exactly one, [*] or [+]), possibly inside a capture group,
    or one of the anchors [^] and [$].  [re.match] tries, for each item in
    turn, the longest run first and backtracks to shorter ones. *)

Module Re.

Inductive quant := One | Star | Plus.

Inductive item :=
| Bol                                              (* ^ *)
| Eol                                              (* $ *)
| Cls (grp : bool) (q : quant) (c : ascii -> bool). (* class, quantified *)

(** Length of the longest prefix of [s] inside the class [c]. *)
Fixpoint span (c : ascii -> bool) (s : list ascii) : nat :=
  match s with
  | x :: s' => if c x then S (span c s') else 0
  | [] => 0
  end.

(** [$] without MULTILINE: the end of the text, or just before a final LF. *)
Definition at_end (s : list ascii) : bool :=
  match s with
  | [] => true
  | [x] => Py.is_lf x
  | _ => false
  end.

Definition q_min (q : quant) : nat :=
  match q with Star => 0 | One | Plus => 1 end.

Definition q_max (q : quant) (avail : nat) : nat :=
  match q with One => Nat.min 1 avail | Star | Plus => avail end.

(** Greedy repetition: the counts [n], [n - 1], ... down to [lo] are tried
    in turn and the first one the rest of the pattern accepts is kept. *)
Fixpoint backtrack {A} (lo : nat) (k : nat -> option A) (n : nat) : option A :=
  if n <? lo then None
  else match k n with
       | Some a => Some a
       | None => match n with
                 | 0 => None
                 | S n' => backtrack lo k n'
                 end
       end.

(** The matcher returns the captured groups, in the order of the pattern. *)
Fixpoint go (its : list item) (pos : nat) (s : list ascii)
  : option (list (list ascii)) :=
  match its with
  | [] => Some []
  | Bol :: r => if pos =? 0 then go r pos s else None
  | Eol :: r => if at_end s then go r pos s else None
  | Cls g q c :: r =>
      backtrack (q_min q)
        (fun n =>
           option_map (fun caps => if g then take n s :: caps else caps)
                      (go r (pos + n) (drop n s)))
        (q_max q (span c s))
  end.

(** [re.match(pattern, text)]; [None] when the text does not match. *)
Definition rmatch (its : list item) (text : string) : option (list string) :=
  option_map (map string_of_list_ascii) (go its 0 (list_ascii_of_string text)).

(** [m.group(i)] for [i >= 1]. *)
Definition group (m : list string) (i : nat) : string :=
  nth (i - 1) m "".

Definition any_of (cs : list ascii) (extra : ascii -> bool) (x : ascii) : bool :=
  existsb (Ascii.eqb x) cs || extra x.

(** [.] without DOTALL: anything but LF. *)
Definition dot (x : ascii) : bool := negb (Py.is_lf x).

End Re.

(** ** ffmpeg_utils.py: the listing parser *)

(** The pattern [^\s*([D\s])([E\s])\s+(\S+)\s+.*$] of line 72. *)
Definition FORMATS_LINE : list Re.item :=
  [ Re.Bol;
    Re.Cls false Re.Star Py.isspace;
    Re.Cls true Re.One (Re.any_of ["D"%char] Py.isspace);
    Re.Cls true Re.One (Re.any_of ["E"%char] Py.isspace);
    Re.Cls false Re.Plus Py.isspace;
    Re.Cls true Re.Plus (fun x => negb (Py.isspace x));
    Re.Cls false Re.Plus Py.isspace;
    Re.Cls false Re.Star Re.dot;
    Re.Eol ].

(** The inner loop of lines 79-80: every name, stripped, is bound to the
    same two-element list. *)
Definition bind_names (flags : list bool) (names : list string)
    (formats : gmap string (list bool)) : gmap string (list bool) :=
  fold_left (fun f name => <[Py.strip name := flags]> f) names formats.

(** The body of the loop of lines 70-80 for one line. *)
Definition parse_line (formats : gmap string (list bool)) (line : string)
  : gmap string (list bool) :=
  match Re.rmatch FORMATS_LINE line with
  | Some m =>
      let demuxable := String.eqb (Re.group m 1) "D" in
      let muxable := String.eqb (Re.group m 2) "E" in
      let names := Py.split ","%char (Re.group m 3) in
      bind_names [demuxable; muxable] names formats
  | None => formats
  end.

(** Lines 69-82: the dictionary built from the captured standard output. *)
Definition parse_formats (stdout : string) : gmap string (list bool) :=
  fold_left parse_line (Py.splitlines stdout) ∅.

(** ** pathlib.PurePosixPath *)

Module Pathlib.

(** A parsed path: the root (empty, one slash or two slashes) and the
    components after it.  The drive is always empty on POSIX. *)
Record path := mk_path { root : string; tail : list string }.

#[global] Instance path_eq_dec : EqDecision path.
Proof. solve_decision. Defined.

#[global] Instance path_countable : Countable path :=
  inj_countable' (fun p => (root p, tail p)) (fun rt => mk_path rt.1 rt.2)
    (fun p => match p with mk_path _ _ => eq_refl end).

Definition str_take (n : nat) (s : string) : string :=
  string_of_list_ascii (take n (list_ascii_of_string s)).

Definition str_drop (n : nat) (s : string) : string :=
  string_of_list_ascii (drop n (list_ascii_of_string s)).

(** [str.rfind(ch)]: the index of the last occurrence, or -1. *)
Fixpoint rfind_go (c : ascii) (s : list ascii) (i : Z) (found : Z) : Z :=
  match s with
  | [] => found
  | x :: s' => rfind_go c s' (i + 1)%Z (if Ascii.eqb x c then i else found)
  end.

Definition rfind (c : ascii) (s : string) : Z :=
  rfind_go c (list_ascii_of_string s) 0%Z (-1)%Z.

Definition startswith (c : ascii) (s : string) : bool :=
  match s with
  | String x _ => Ascii.eqb x c
  | EmptyString => false
  end.

Definition contains_char (c : ascii) (s : string) : bool :=
  existsb (Ascii.eqb c) (list_ascii_of_string s).

(** [posixpath.splitroot]: exactly two leading slashes are kept as a root
    of their own, any other number collapses to one. *)
Definition splitroot (p : string) : string * string :=
  match p with
  | String "/" rest =>
      match rest with
      | String "/" rest2 =>
          match rest2 with
          | String "/" _ => ("/", rest)
          | _ => ("//", rest2)
          end
      | _ => ("/", rest)
      end
  | _ => ("", p)
  end.

(** The components of a relative part: empty ones and [.] are dropped. *)
Definition keep_part (x : string) : bool :=
  negb (String.eqb x "") && negb (String.eqb x ".").

Definition parse_tail (rel : string) : list string :=
  List.filter keep_part (Py.split "/"%char rel).

(** [PurePosixPath(s)]. *)
Definition Path (s : string) : path :=
  let '(r, rel) := splitroot s in mk_path r (parse_tail rel).

(** [p / key] for a string [key]: an absolute [key] replaces [p]. *)
Definition joinpath (p : path) (key : string) : path :=
  if startswith "/"%char key then Path key
  else mk_path (root p) (tail p ++ parse_tail key).

(** [p.name]: the final component, empty when there is none. *)
Definition name (p : path) : string := List.last (tail p) "".

(** [p.suffix]: from the last dot of the name, unless that dot is the
    first or the last character. *)
Definition suffix (p : path) : string :=
  let name := name p in
  let i := rfind "."%char name in
  if (0 <? i)%Z && (i <? Z.of_nat (String.length name) - 1)%Z
  then str_drop (Z.to_nat i) name
  else "".

(** [p.stem]: the name without its suffix. *)
Definition stem (p : path) : string :=
  let name := name p in
  let i := rfind "."%char name in
  if (0 <? i)%Z && (i <? Z.of_nat (String.length name) - 1)%Z
  then str_take (Z.to_nat i) name
  else name.

(** [p.parent]: a path without components is its own parent. *)
Definition parent (p : path) : path :=
  match tail p with
  | [] => p
  | _ => mk_path (root p) (removelast (tail p))
  end.

(** [p.with_suffix(suffix)]; [None] stands for the [ValueError] raised on
    an invalid suffix or on a path with an empty name. *)
Definition with_suffix (p : path) (sfx : string) : option path :=
  if contains_char "/"%char sfx then None
  else if (negb (String.eqb sfx "") && negb (startswith "."%char sfx))
          || String.eqb sfx "."
  then None
  else
    let name := name p in
    if String.eqb name "" then None
    else
      let old_suffix := suffix p in
      let name' :=
        if String.eqb old_suffix "" then name +:+ sfx
        else str_take (String.length name - String.length old_suffix) name
             +:+ sfx in
      Some (mk_path (root p) (removelast (tail p) ++ [name'])).

End Pathlib.

Import Pathlib.

(** ** Exceptions, external collaborators and the process state *)

(** The exceptions a caller can observe.  The classes of [errors.py] carry
    the offending format and path. *)
Inductive exn :=
| FFmpegNotInstalledError
| FFmpegExecutionError
| AudioFormatUnsupportedError (format : string) (file : path)
| AudioDemuxingError (format : string) (file : path)
| AudioMuxingError (format : string) (file : path)
| FileNotFoundError (file : path)
| JSONDecodeError
| CouldntDecodeError
| ValueError
| IndexError
| UnicodeDecodeError
| RecursionError
| RuntimeError.

Inductive res (A : Type) :=
| Ok (a : A)
| Raise (e : exn).
Arguments Ok {A} a.
Arguments Raise {A} e.

(** The pretrained separation model: its declared sources and what
    [demucs.apply.apply_model] does with a mix.  With its default
    [shifts=1] that function draws a random offset on every call, so the
    stems it returns depend on the draw; it may also raise. *)
Record HTDemucs (Tensor : Type) := mk_model {
  sources : list string;
  apply_model : Tensor -> nat -> res (list Tensor)
}.
Arguments sources {Tensor} _.
Arguments apply_model {Tensor} _ _ _.

(** The libraries and the executable the code delegates to.  A file is its
    bytes.  [json_load] stands for [json.load] on an open text file: it
    returns the dictionary or the exception raised while the bytes are
    decoded and parsed ([UnicodeDecodeError], [JSONDecodeError],
    [RecursionError], ...).  The other decoders return [None] where the
    library raises; [torchaudio_encode] is [None] for a tensor that
    [torchaudio.save] refuses.  [randint n] is the [n]-th draw of Python's
    global random generator. *)
Record Externals := {
  AudioSegment : Type;
  Tensor : Type;
  SampleRate : Type;
  subprocess_run : list string -> option string;
  json_load : string -> res (gmap string (list bool));
  json_dump : gmap string (list bool) -> string;
  pydub_decode : path -> string -> option AudioSegment;
  pydub_encode_wav : AudioSegment -> string;
  torchaudio_decode : string -> option (Tensor * SampleRate);
  torchaudio_encode : Tensor -> SampleRate -> option string;
  randint : nat -> nat;
  get_model : string -> HTDemucs Tensor;
  squeeze0 : Tensor -> Tensor
}.

(** Line 19. *)
Definition AUDIO_FORMATS_SAVE_PATH : path := Path "audio_formats.json".

Section Program.

Context (E : Externals).

(** The regular files on disk, the directories that exist besides those
    the files lie in, the log of files opened for reading, the number of
    draws made from the random generator, and the two
    [lru_cache(maxsize=1)] memo tables.  The key of a memo entry is the
    argument tuple of the call: [None] for a call without argument.  A
    path that names a directory is never read in this development. *)
Record state := mk_state {
  fs : gmap path string;
  dirs : gset path;
  opened : list path;
  random_state : nat;
  formats_cache : option (option path * gmap string (list bool));
  model_cache : option (HTDemucs (Tensor E))
}.

(** Field updates. *)
Definition set_fs (disk : gmap path string) (st : state) : state :=
  mk_state disk (dirs st) (opened st) (random_state st)
           (formats_cache st) (model_cache st).

Definition log_open (p : path) (st : state) : state :=
  mk_state (fs st) (dirs st) (opened st ++ [p]) (random_state st)
           (formats_cache st) (model_cache st).

Definition set_random_state (n : nat) (st : state) : state :=
  mk_state (fs st) (dirs st) (opened st) n
           (formats_cache st) (model_cache st).

Definition set_formats_cache
    (c : option (option path * gmap string (list bool))) (st : state)
  : state :=
  mk_state (fs st) (dirs st) (opened st) (random_state st) c (model_cache st).

Definition set_model_cache (c : option (HTDemucs (Tensor E))) (st : state)
  : state :=
  mk_state (fs st) (dirs st) (opened st) (random_state st)
           (formats_cache st) c.

(** [d] lies strictly above [q]. *)
Definition is_ancestor (d q : path) : bool :=
  bool_decide (root d = root q)
  && bool_decide (tail d `prefix_of` tail q)
  && (length (tail d) <? length (tail q)).

(** The directory [d] exists: it is recorded, or it is the working
    directory or a root, or some file lies below it. *)
Definition dir_exists (st : state) (d : path) : bool :=
  bool_decide (d ∈ dirs st)
  || bool_decide (tail d = [])
  || bool_decide (set_Exists (fun q => is_ancestor d q = true) (dom (fs st))).

(** A computation reads and changes the state and returns or raises. *)
Definition M (A : Type) : Type := state -> res A * state.

Definition ret {A} (a : A) : M A := fun st => (Ok a, st).
Definition raise {A} (e : exn) : M A := fun st => (Raise e, st).
Definition bind {A B} (m : M A) (k : A -> M B) : M B :=
  fun st => match m st with
            | (Ok a, st') => k a st'
            | (Raise e, st') => (Raise e, st')
            end.

#[global] Instance M_ret : MRet M := @ret.
#[global] Instance M_bind : MBind M := fun A B k m => bind m k.

(** Reading a file: [open(p)] followed by the read. *)
Definition read_file (p : path) : M string :=
  fun st =>
    match fs st !! p with
    | Some text =>
        (Ok text, log_open p st)
    | None => (Raise (FileNotFoundError p), st)
    end.

(** Writing a file through [open(p, 'w')], replacing what was there; the
    file cannot be created in a directory that does not exist. *)
Definition write_file (p : path) (text : string) : M unit :=
  fun st =>
    if dir_exists st (parent p)
    then (Ok tt, set_fs (<[p := text]> (fs st)) st)
    else (Raise (FileNotFoundError p), st).

(** [random.randint]: the next draw of the global generator. *)
Definition random_randint : M nat :=
  fun st =>
    (Ok (randint E (random_state st)),
     set_random_state (S (random_state st)) st).

(** [Path.exists()]. *)
Definition exists_ (p : path) : M bool :=
  fun st => (Ok (bool_decide (is_Some (fs st !! p))), st).

(** [Path.unlink()]. *)
Definition unlink (p : path) : M unit :=
  fun st =>
    match fs st !! p with
    | Some _ =>
        (Ok tt, set_fs (delete p (fs st)) st)
    | None => (Raise (FileNotFoundError p), st)
    end.

(** ** ffmpeg_utils.py *)

(** Lines 22-38. *)
Definition _verify_ffmpeg_installation : M unit :=
  match subprocess_run E ["ffmpeg"; "-version"] with
  | Some _ => ret tt
  | None => raise FFmpegNotInstalledError
  end.

(** Lines 41-82. *)
Definition _build_audio_formats_dict : M (gmap string (list bool)) :=
  _verify_ffmpeg_installation;;
  match subprocess_run E ["ffmpeg"; "-formats"] with
  | Some stdout => ret (parse_formats stdout)
  | None => raise FFmpegExecutionError
  end.

(** Lines 85-100. *)
Definition _save_audio_formats_dict (save_path : path) : M unit :=
  audio_format_dict ← _build_audio_formats_dict;
  write_file save_path (json_dump E audio_format_dict).

(** Lines 124-130: the function under the decorator. *)
Definition load_uncached (save_path : path) : M (gmap string (list bool)) :=
  present ← exists_ save_path;
  if negb present then raise (FileNotFoundError save_path)
  else
    text ← read_file save_path;
    match json_load E text with
    | Ok data => ret data
    | Raise e => raise e
    end.

(** What [lru_cache] does with the outcome of a miss: a returned value
    replaces the single slot, a raised exception is not stored. *)
Definition memoize (arg : option path)
    (r : res (gmap string (list bool)) * state)
  : res (gmap string (list bool)) * state :=
  match r with
  | (Ok data, st') => (Ok data, set_formats_cache (Some (arg, data)) st')
  | (Raise e, st') => (Raise e, st')
  end.

(** Lines 103-130: [lru_cache(maxsize=1)] looks the argument tuple up and
    returns the stored value on a hit; on a miss it runs the function, with
    the default path when the call has no argument. *)
Definition _load_audio_formats_dict (arg : option path)
  : M (gmap string (list bool)) :=
  fun st =>
    match formats_cache st with
    | Some (key, data) =>
        if decide (key = arg) then (Ok data, st)
        else memoize arg
               (load_uncached (default AUDIO_FORMATS_SAVE_PATH arg) st)
    | None =>
        memoize arg (load_uncached (default AUDIO_FORMATS_SAVE_PATH arg) st)
    end.

(** [xs[i]] on a list. *)
Definition getitem {A} (xs : list A) (i : nat) : M A :=
  match xs !! i with
  | Some x => ret x
  | None => raise IndexError
  end.

(** Lines 151-161, on the loaded dictionary. *)
Definition check_formats (supported_formats : gmap string (list bool))
    (input_format : string) (input_path : path)
    (output_format : string) (output_path : path) : M unit :=
  match supported_formats !! input_format with
  | None => raise (AudioFormatUnsupportedError input_format input_path)
  | Some in_flags =>
      demuxable ← getitem in_flags 0;
      if negb demuxable then raise (AudioDemuxingError input_format input_path)
      else
        match supported_formats !! output_format with
        | None => raise (AudioFormatUnsupportedError output_format output_path)
        | Some out_flags =>
            muxable ← getitem out_flags 1;
            if negb muxable
            then raise (AudioMuxingError output_format output_path)
            else ret tt
        end
  end.

(** Lines 133-161. *)
Definition _validate_audio_formats (input_format : string) (input_path : path)
    (output_format : string) (output_path : path) : M unit :=
  supported_formats ← _load_audio_formats_dict None;
  check_formats supported_formats input_format input_path
                output_format output_path.

(** ** file_utils.py *)

(** [AudioSegment.from_file(p)]. *)
Definition from_file (p : path) : M (AudioSegment E) :=
  text ← read_file p;
  match pydub_decode E p text with
  | Some audio => ret audio
  | None => raise CouldntDecodeError
  end.

(** Lines 11-32. *)
Definition convert_to_wav (input_path : path) (keep_input_file : bool)
  : M path :=
  if String.eqb (Py.lower (suffix input_path)) ".wav" then ret input_path
  else
    match with_suffix input_path ".wav" with
    | None => raise ValueError
    | Some output_path =>
        audio ← from_file input_path;
        write_file output_path (pydub_encode_wav E audio);;
        (if negb keep_input_file then unlink input_path else ret tt);;
        ret output_path
    end.

(** [torchaudio.save(p, waveform, sample_rate)]: a tensor the encoder
    refuses raises [ValueError]; a missing directory makes the backend
    raise its [RuntimeError]. *)
Definition torchaudio_save (p : path) (waveform : Tensor E)
    (sample_rate : SampleRate E) : M unit :=
  fun st =>
    match torchaudio_encode E waveform sample_rate with
    | None => (Raise ValueError, st)
    | Some bytes =>
        if dir_exists st (parent p)
        then (Ok tt, set_fs (<[p := bytes]> (fs st)) st)
        else (Raise RuntimeError, st)
    end.

(** Lines 35-55; the same text is repeated in source_separation.py. *)
Definition _save_isolated_track (waveform : Tensor E) (track_name : string)
    (sample_rate : SampleRate E) (base_path : path) : M path :=
  let save_directory := parent base_path in
  let new_filename := stem base_path +:+ "_" +:+ track_name +:+ ".wav" in
  let track_path := joinpath save_directory new_filename in
  torchaudio_save track_path waveform sample_rate;;
  ret track_path.

(** ** source_separation.py *)

(** Lines 15-27: the model is loaded once; moving it to a device does not
    change what it computes. *)
Definition _get_htdemucs_model : M (HTDemucs (Tensor E)) :=
  fun st =>
    match model_cache st with
    | Some model => (Ok model, st)
    | None =>
        let model := get_model E "htdemucs_6s" in
        (Ok model, set_model_cache (Some model) st)
    end.

(** [xs.index(x)]: the first position of [x], or a [ValueError]. *)
Fixpoint list_index (x : string) (xs : list string) : option nat :=
  match xs with
  | [] => None
  | y :: ys => if String.eqb y x then Some 0
               else option_map S (list_index x ys)
  end.

(** Lines 30-51: the model is applied first (line 45, which draws the
    random shift), then [guitar] is looked up among the sources (line 46),
    then the stem is taken and squeezed (line 49). *)
Definition _isolate_guitar_waveform (waveform : Tensor E) : M (Tensor E) :=
  model ← _get_htdemucs_model;
  offset ← random_randint;
  match apply_model model waveform offset with
  | Raise e => raise e
  | Ok separated_waveforms =>
      match list_index "guitar" (sources model) with
      | None => raise ValueError
      | Some guitar_index =>
          stem_waveform ← getitem separated_waveforms guitar_index;
          ret (squeeze0 E stem_waveform)
      end
  end.

(** Lines 54-74 of source_separation.py. *)
Definition _save_isolated_track' (waveform : Tensor E) (track_name : string)
    (sample_rate : SampleRate E) (base_path : path) : M path :=
  let save_directory := parent base_path in
  let new_filename := stem base_path +:+ "_" +:+ track_name +:+ ".wav" in
  let track_path := joinpath save_directory new_filename in
  torchaudio_save track_path waveform sample_rate;;
  ret track_path.

(** [torchaudio.load(p)]: the backend raises its [RuntimeError] both when
    there is no file and when the file does not decode. *)
Definition torchaudio_load (p : path) : M (Tensor E * SampleRate E) :=
  fun st =>
    match fs st !! p with
    | Some bytes =>
        match torchaudio_decode E bytes with
        | Some r => (Ok r, log_open p st)
        | None => (Raise RuntimeError, log_open p st)
        end
    | None => (Raise RuntimeError, st)
    end.

(** Lines 77-97. *)
Definition isolate_guitar (audio_path : path) : M path :=
  r ← torchaudio_load audio_path;
  let '(waveform, sample_rate) := r in
  guitar_waveform ← _isolate_guitar_waveform waveform;
  _save_isolated_track' guitar_waveform "guitar" sample_rate audio_path.

End Program.

(** ** Notions used to state the properties *)

(** The aliases a listing line binds: none when the line does not match. *)
Definition line_aliases (line : string) : list string :=
  match Re.rmatch FORMATS_LINE line with
  | Some m => map Py.strip (Py.split ","%char (Re.group m 3))
  | None => []
  end.

(** The classes of the capture groups of a pattern, in order. *)
Fixpoint group_classes (its : list Re.item) : list (ascii -> bool) :=
  match its with
  | [] => []
  | Re.Cls true _ c :: r => c :: group_classes r
  | _ :: r => group_classes r
  end.

(** The line feed, as a text. *)
Definition LF : string := String "010"%char "".

(** A character that occurs nowhere in a text. *)
Definition free_of (c : ascii) (s : string) : Prop :=
  contains_char c s = false.

(** A character other than [c]. *)
Definition differs (c : ascii) (x : ascii) : Prop := Ascii.eqb x c = false.

(** A path as the parser produces it: no component is empty, is a lone dot
    or holds a slash. *)
Definition wf_path (p : path) : Prop :=
  Forall (fun x => keep_part x = true /\ free_of "/"%char x) (tail p).

(** The model a call of [_get_htdemucs_model] returns in a state. *)
Definition current_model (E : Externals) (st : state E) : HTDemucs (Tensor E) :=
  default (get_model E "htdemucs_6s") (model_cache E st).

(** The six sources of [htdemucs_6s]. *)
Definition SIX_SOURCES : list string :=
  ["drums"; "bass"; "other"; "vocals"; "guitar"; "piano"].

(** A small instance of the collaborators, for closed examples: audio is
    its bytes, a JSON document is one of three fixed texts, bytes from 248
    up are not text, the executable prints [listing], the model declares
    [srcs] and labels the mix once per source, the encoder refuses the
    empty tensor. *)
Definition sample_json (text : string) : res (gmap string (list bool)) :=
  if existsb (fun c => 248 <=? nat_of_ascii c) (list_ascii_of_string text)
  then Raise UnicodeDecodeError
  else if String.eqb text "{}" then Ok ∅
  else if String.eqb text "{wav: [true, true]}"
  then Ok {[ "wav" := [true; true] ]}
  else if String.eqb text "{mp3: [true, false]}"
  then Ok {[ "mp3" := [true; false] ]}
  else Raise JSONDecodeError.

Definition sample_externals (listing : string) (srcs : list string)
  : Externals :=
  {| AudioSegment := string;
     Tensor := string;
     SampleRate := Z;
     subprocess_run := fun _ => Some listing;
     json_load := sample_json;
     json_dump := fun _ => "{}";
     pydub_decode := fun _ text =>
       if String.eqb text "" then None else Some text;
     pydub_encode_wav := fun audio => "RIFF" +:+ audio;
     torchaudio_decode := fun text =>
       if String.eqb text "" then None else Some (text, 44100%Z);
     torchaudio_encode := fun t _ =>
       if String.eqb t "" then None else Some ("RIFF" +:+ t);
     randint := fun n => n;
     get_model := fun _ =>
       mk_model string srcs
         (fun t _ => Ok (map (fun s => s +:+ ":" +:+ t) srcs));
     squeeze0 := fun t => t |}.


(** The argument tuple the memo of [_load_audio_formats_dict] holds. *)
Definition memo_key (E : Externals) (st : state E) : option (option path) :=
  fst <$> formats_cache E st.

(** A fresh process over a given disk. *)
Definition fresh (E : Externals) (disk : gmap path string) : state E :=
  mk_state E disk ∅ [] 0 None None.

(** The flags a listing line gives to its aliases: the two tests of
    lines 75-76. *)
Definition line_flags (line : string) : list bool :=
  match Re.rmatch FORMATS_LINE line with
  | Some m => [String.eqb (Re.group m 1) "D"; String.eqb (Re.group m 2) "E"]
  | None => []
  end.

(** Whether a listing line matches the pattern. *)
Definition line_matches (line : string) : bool :=
  bool_decide (is_Some (Re.rmatch FORMATS_LINE line)).

(** What a successful match says about the text: each item took a run of
    its class of an allowed length, and the groups are those runs. *)
Fixpoint shape (its : list Re.item) (pos : nat) (s : list ascii)
    (caps : list (list ascii)) : Prop :=
  match its with
  | [] => caps = []
  | Re.Bol :: r => pos = 0 /\ shape r pos s caps
  | Re.Eol :: r => Re.at_end s = true /\ shape r pos s caps
  | Re.Cls g q c :: r =>
      exists n caps',
        Re.q_min q <= n /\ n <= Re.q_max q (Re.span c s) /\
        shape r (pos + n) (drop n s) caps' /\
        caps = (if g then take n s :: caps' else caps')
  end.

(** A dictionary whose every entry has at least the two flags. *)
Definition two_flags (formats : gmap string (list bool)) : Prop :=
  forall k v, formats !! k = Some v -> 2 <= length v.

(** * Properties *)

(** ** The listing parser *)

Section Parser.

Implicit Types (formats : gmap string (list bool)) (flags : list bool).

Lemma bind_names_lookup flags names formats (k : string) :
  bind_names flags names formats !! k =
    if bool_decide (k ∈ map Py.strip names) then Some flags
    else formats !! k.
Proof.
  unfold bind_names. revert formats.
  induction names as [|n names IH]; intros formats; cbn [fold_left map].
  - rewrite bool_decide_eq_false_2; [done | apply not_elem_of_nil].
  - rewrite IH. destruct (decide (k ∈ map Py.strip names)) as [Hin|Hout].
    + rewrite !bool_decide_eq_true_2; [done | by right | done].
    + rewrite (bool_decide_eq_false_2 _ Hout).
      destruct (decide (k = Py.strip n)) as [->|Hne].
      * rewrite lookup_insert_eq, bool_decide_eq_true_2; [done | by left].
      * rewrite lookup_insert_ne by done.
        rewrite bool_decide_eq_false_2; [done |].
        rewrite elem_of_cons. tauto.
Qed.

Lemma parse_line_untouched formats line (k : string) :
  k ∉ line_aliases line -> parse_line formats line !! k = formats !! k.
Proof.
  unfold parse_line, line_aliases.
  destruct (Re.rmatch FORMATS_LINE line) as [m|]; [|done].
  intros Hout. rewrite bind_names_lookup.
  by rewrite bool_decide_eq_false_2.
Qed.

Lemma parse_line_bound formats line m (k : string) :
  Re.rmatch FORMATS_LINE line = Some m ->
  k ∈ map Py.strip (Py.split ","%char (Re.group m 3)) ->
  parse_line formats line !! k =
    Some [String.eqb (Re.group m 1) "D"; String.eqb (Re.group m 2) "E"].
Proof.
  intros Hm Hin. unfold parse_line. rewrite Hm.
  rewrite bind_names_lookup. by rewrite bool_decide_eq_true_2.
Qed.

Lemma parse_lines_untouched lines formats (k : string) :
  (forall ln, ln ∈ lines -> k ∉ line_aliases ln) ->
  fold_left parse_line lines formats !! k = formats !! k.
Proof.
  revert formats. induction lines as [|ln lines IH]; intros formats H; simpl.
  - done.
  - rewrite IH.
    + apply parse_line_untouched, H. by left.
    + intros ln' Hln'. apply H. by right.
Qed.

(** The binding of a key comes from the last line that lists it. *)
Lemma parse_lines_last pre line post m (k : string) :
  Re.rmatch FORMATS_LINE line = Some m ->
  k ∈ map Py.strip (Py.split ","%char (Re.group m 3)) ->
  (forall ln, ln ∈ post -> k ∉ line_aliases ln) ->
  fold_left parse_line (pre ++ line :: post) ∅ !! k =
    Some [String.eqb (Re.group m 1) "D"; String.eqb (Re.group m 2) "E"].
Proof.
  intros Hm Hin Hpost. rewrite fold_left_app. simpl.
  rewrite parse_lines_untouched by done.
  by apply parse_line_bound.
Qed.

End Parser.

(** ** What the matcher captures *)

Section Matcher.

Lemma backtrack_Some {A} lo (k : nat -> option A) n a :
  Re.backtrack lo k n = Some a -> exists j, j <= n /\ k j = Some a.
Proof.
  induction n as [|n IH]; simpl.
  - destruct (0 <? lo); [done|]. destruct (k 0) eqn:Hk; [|done].
    intros [= ->]. exists 0. split; [lia | done].
  - destruct (S n <? lo); [done|]. destruct (k (S n)) eqn:Hk.
    + intros [= ->]. exists (S n). split; [lia | done].
    + intros H. destruct (IH H) as (j & Hj & Hkj).
      exists j. split; [lia | done].
Qed.

Lemma take_span c (s : list ascii) n :
  n <= Re.span c s -> Forall (fun x => c x = true) (take n s).
Proof.
  revert n. induction s as [|x s IH]; intros n Hn.
  - by rewrite take_nil.
  - destruct n as [|n]; [constructor|]. simpl in *.
    destruct (c x) eqn:Hx; [|lia].
    constructor; [done | apply IH; lia].
Qed.

Lemma q_max_le q n : Re.q_max q n <= n.
Proof. unfold Re.q_max. destruct q; lia. Qed.

(** Every captured group lies inside the class of its group. *)
Lemma go_groups its : forall pos s caps,
  Re.go its pos s = Some caps ->
  Forall2 (fun cap c => Forall (fun x => c x = true) cap)
          caps (group_classes its).
Proof.
  induction its as [|it r IH]; intros pos s caps; simpl.
  - intros [= <-]. constructor.
  - destruct it as [| |g q c].
    + destruct (pos =? 0); [apply IH | done].
    + destruct (Re.at_end s); [apply IH | done].
    + intros H. apply backtrack_Some in H as (j & Hj & Hk).
      destruct (Re.go r (pos + j) (drop j s)) as [caps'|] eqn:Hgo; [|done].
      simpl in Hk. injection Hk as <-.
      apply IH in Hgo. destruct g; [|done].
      constructor; [|done].
      apply take_span. pose proof (q_max_le q (Re.span c s)). lia.
Qed.

Lemma Forall_string_roundtrip (P : ascii -> Prop) (l : list ascii) :
  Forall P l -> Forall P (list_ascii_of_string (string_of_list_ascii l)).
Proof. by rewrite list_ascii_of_string_of_list_ascii. Qed.

(** A matching line has three groups, and the third holds no whitespace. *)
Lemma formats_line_groups line m :
  Re.rmatch FORMATS_LINE line = Some m ->
  exists g1 g2 g3, m = [g1; g2; g3] /\
    Forall (fun x => Py.isspace x = false) (list_ascii_of_string g3).
Proof.
  unfold Re.rmatch.
  destruct (Re.go FORMATS_LINE 0 (list_ascii_of_string line))
    as [caps|] eqn:Hgo; [|done].
  intros [= <-]. apply go_groups in Hgo. simpl in Hgo.
  inversion Hgo as [|c1 ? l1 ? H1 Hgo1]; subst.
  inversion Hgo1 as [|c2 ? l2 ? H2 Hgo2]; subst.
  inversion Hgo2 as [|c3 ? l3 ? H3 Hgo3]; subst.
  inversion Hgo3; subst.
  eexists _, _, _. split; [reflexivity|].
  rewrite list_ascii_of_string_of_list_ascii.
  eapply Forall_impl; [exact H3|]. simpl. intros x Hx.
  by apply negb_true_iff.
Qed.

Lemma split_go_chars (P : ascii -> Prop) sep s : forall cur piece,
  Forall P cur -> Forall P s ->
  piece ∈ Py.split_go sep cur s -> Forall P piece.
Proof.
  induction s as [|x s IH]; intros cur piece Hcur Hs; simpl.
  - intros ->%list_elem_of_singleton. by apply Forall_rev.
  - inversion Hs as [|? ? Hx Hs']; subst.
    destruct (Ascii.eqb x sep).
    + intros [->|Hin]%elem_of_cons.
      * by apply Forall_rev.
      * eapply IH; [constructor | done | done].
    + apply IH; [by constructor | done].
Qed.

Lemma split_chars (P : ascii -> Prop) sep s piece :
  Forall P (list_ascii_of_string s) ->
  piece ∈ Py.split sep s -> Forall P (list_ascii_of_string piece).
Proof.
  unfold Py.split. intros Hs (l & -> & Hl)%list_elem_of_fmap.
  rewrite list_ascii_of_string_of_list_ascii.
  eapply split_go_chars; [constructor | exact Hs | exact Hl].
Qed.

Lemma lstrip_l_id (l : list ascii) :
  Forall (fun x => Py.isspace x = false) l -> Py.lstrip_l l = l.
Proof. destruct 1 as [|x l Hx _]; simpl; [done | by rewrite Hx]. Qed.

(** Stripping a text without whitespace changes nothing. *)
Lemma strip_id s :
  Forall (fun x => Py.isspace x = false) (list_ascii_of_string s) ->
  Py.strip s = s.
Proof.
  intros H. unfold Py.strip.
  rewrite (lstrip_l_id _ H).
  rewrite lstrip_l_id by by apply Forall_rev.
  by rewrite rev_involutive, string_of_list_ascii_of_string.
Qed.

(** The names of a matching line are bound as they stand. *)
Lemma alias_strip_id line m name :
  Re.rmatch FORMATS_LINE line = Some m ->
  name ∈ Py.split ","%char (Re.group m 3) ->
  Py.strip name = name.
Proof.
  intros Hm Hin. apply formats_line_groups in Hm as (g1 & g2 & g3 & -> & Hg3).
  apply strip_id. by eapply split_chars.
Qed.

End Matcher.

(** ** Building the dictionary from the executable's listing *)

Section Build.

Context (E : Externals).

Lemma build_runs (st : state E) v stdout :
  subprocess_run E ["ffmpeg"; "-version"] = Some v ->
  subprocess_run E ["ffmpeg"; "-formats"] = Some stdout ->
  _build_audio_formats_dict E st = (Ok (parse_formats stdout), st).
Proof.
  intros Hv Hf.
  unfold _build_audio_formats_dict, _verify_ffmpeg_installation.
  rewrite Hv, Hf. reflexivity.
Qed.

End Build.

(** C2 (as stated, refuted): the line [D E  wav,wave  WAV format] has a
    space between the two flag columns, so the pattern of line 72 does not
    match it and the listing made of that line alone yields the empty
    dictionary: neither [wav] nor [wave] is bound. *)
Lemma C2_spaced_flags_bind_nothing :
  let E := sample_externals "D E  wav,wave  WAV format" SIX_SOURCES in
  Re.rmatch FORMATS_LINE "D E  wav,wave  WAV format" = None /\
  exists formats,
    _build_audio_formats_dict E (fresh E ∅) = (Ok formats, fresh E ∅) /\
    formats = ∅ /\ formats !! "wav" = None /\ formats !! "wave" = None.
Proof.
  split; [vm_compute; reflexivity|].
  exists ∅. split; [|done].
  by rewrite (build_runs _ _ "D E  wav,wave  WAV format"
                         "D E  wav,wave  WAV format").
Qed.

(** C2 (amended): when the listing contains the line
    [DE  wav,wave  WAV format], with the two flags in adjacent columns as
    the pattern requires, and no later line lists [wav] or [wave], the
    dictionary built binds both [wav] and [wave] to [[true, true]]; for the
    listing made of that line alone these are exactly its entries. *)
Theorem C2_wav_line_binds_both_aliases (E : Externals) (st : state E)
    v stdout pre post :
  subprocess_run E ["ffmpeg"; "-version"] = Some v ->
  subprocess_run E ["ffmpeg"; "-formats"] = Some stdout ->
  Py.splitlines stdout = pre ++ "DE  wav,wave  WAV format" :: post ->
  (forall ln, ln ∈ post ->
     ("wav" ∉ line_aliases ln) /\ ("wave" ∉ line_aliases ln)) ->
  exists formats,
    _build_audio_formats_dict E st = (Ok formats, st) /\
    formats !! "wav" = Some [true; true] /\
    formats !! "wave" = Some [true; true] /\
    (pre = [] -> post = [] ->
     formats = {[ "wav" := [true; true]; "wave" := [true; true] ]}).
Proof.
  intros Hv Hf Hlines Hpost.
  exists (parse_formats stdout). split; [by eapply build_runs|].
  unfold parse_formats. rewrite Hlines.
  assert (Hm : Re.rmatch FORMATS_LINE "DE  wav,wave  WAV format"
               = Some ["D"; "E"; "wav,wave"]) by (vm_compute; reflexivity).
  split; [|split].
  - rewrite (parse_lines_last _ _ _ _ "wav" Hm).
    + reflexivity.
    + vm_compute. apply list_elem_of_here.
    + intros ln Hln. exact (proj1 (Hpost ln Hln)).
  - rewrite (parse_lines_last _ _ _ _ "wave" Hm).
    + reflexivity.
    + vm_compute. apply list_elem_of_further, list_elem_of_here.
    + intros ln Hln. exact (proj2 (Hpost ln Hln)).
  - clear Hpost Hlines. intros -> ->. simpl. unfold parse_line. rewrite Hm.
    apply map_eq. intros k. rewrite bind_names_lookup.
    change (map Py.strip (Py.split ","%char
              (Re.group ["D"; "E"; "wav,wave"] 3)))
      with ["wav"; "wave"].
    change (String.eqb (Re.group ["D"; "E"; "wav,wave"] 1) "D") with true.
    change (String.eqb (Re.group ["D"; "E"; "wav,wave"] 2) "E") with true.
    destruct (decide (k = "wav")) as [->|Hk1].
    { rewrite bool_decide_eq_true_2 by apply list_elem_of_here.
      by rewrite lookup_insert_eq. }
    destruct (decide (k = "wave")) as [->|Hk2].
    { rewrite bool_decide_eq_true_2
        by apply list_elem_of_further, list_elem_of_here.
      rewrite lookup_insert_ne by done. by rewrite lookup_singleton_eq. }
    rewrite bool_decide_eq_false_2
      by (rewrite !elem_of_cons, elem_of_nil; tauto).
    rewrite lookup_insert_ne by done. by rewrite lookup_singleton_ne.
Qed.

Lemma C2_wav_line_witness :
  let E := sample_externals "DE  wav,wave  WAV format" SIX_SOURCES in
  exists formats,
    _build_audio_formats_dict E (fresh E ∅) = (Ok formats, fresh E ∅) /\
    formats !! "wav" = Some [true; true] /\
    formats !! "wave" = Some [true; true] /\
    (@nil string = [] -> @nil string = [] ->
     formats = {[ "wav" := [true; true]; "wave" := [true; true] ]}).
Proof.
  intros E.
  apply (C2_wav_line_binds_both_aliases E (fresh E ∅)
           "DE  wav,wave  WAV format" "DE  wav,wave  WAV format" [] []).
  - reflexivity.
  - reflexivity.
  - vm_compute. reflexivity.
  - intros ln Hln. by apply elem_of_nil in Hln.
Defined.

(** C3: one pass over a matching line binds every name of its comma
    separated list to the pair read from the line's two flag characters,
    whatever the dictionary held for that name before; and in the
    dictionary built from a whole listing, a name is bound to the flags of
    the last matching line that lists it, the build raising no error. *)
Theorem C3_aliases_share_flags_last_line_wins (E : Externals) (st : state E)
    v stdout pre line post m name :
  subprocess_run E ["ffmpeg"; "-version"] = Some v ->
  subprocess_run E ["ffmpeg"; "-formats"] = Some stdout ->
  Py.splitlines stdout = pre ++ line :: post ->
  Re.rmatch FORMATS_LINE line = Some m ->
  name ∈ Py.split ","%char (Re.group m 3) ->
  (forall ln, ln ∈ post -> name ∉ line_aliases ln) ->
  let flags := [String.eqb (Re.group m 1) "D";
                String.eqb (Re.group m 2) "E"] in
  (forall formats, parse_line formats line !! name = Some flags) /\
  exists formats,
    _build_audio_formats_dict E st = (Ok formats, st) /\
    formats !! name = Some flags.
Proof.
  intros Hv Hf Hlines Hm Hname Hpost flags.
  assert (Hin : name ∈ map Py.strip (Py.split ","%char (Re.group m 3))).
  { apply list_elem_of_fmap. exists name. split; [|exact Hname].
    symmetry. eapply alias_strip_id; eassumption. }
  split.
  - intros formats. by apply parse_line_bound.
  - exists (parse_formats stdout). split; [by eapply build_runs|].
    unfold parse_formats. rewrite Hlines.
    by apply parse_lines_last.
Qed.

Lemma C3_last_line_wins_witness :
  let E := sample_externals
             ("DE  wav,wave  WAV format" +:+ LF +:+ " D  wav  raw")
             SIX_SOURCES in
  (forall formats,
     parse_line formats " D  wav  raw" !! "wav" = Some [true; false]) /\
  exists formats,
    _build_audio_formats_dict E (fresh E ∅) = (Ok formats, fresh E ∅) /\
    formats !! "wav" = Some [true; false].
Proof.
  intros E.
  apply (C3_aliases_share_flags_last_line_wins E (fresh E ∅)
           ("DE  wav,wave  WAV format" +:+ LF +:+ " D  wav  raw")
           ("DE  wav,wave  WAV format" +:+ LF +:+ " D  wav  raw")
           ["DE  wav,wave  WAV format"] " D  wav  raw" []
           ["D"; " "; "wav"] "wav").
  - reflexivity.
  - reflexivity.
  - vm_compute. reflexivity.
  - vm_compute. reflexivity.
  - vm_compute. apply list_elem_of_here.
  - intros ln Hln. exfalso. exact (proj1 (elem_of_nil ln) Hln).
Defined.

(** ** Loading and validating *)

Section Registry.

Context (E : Externals).
Implicit Types (st : state E) (arg : option path).

Lemma load_uncached_absent st p :
  fs E st !! p = None ->
  load_uncached E p st = (Raise (FileNotFoundError p), st).
Proof.
  intros Hp. unfold load_uncached, exists_, mbind, M_bind, bind.
  rewrite Hp. rewrite bool_decide_eq_false_2; [done|].
  by intros [? [=]].
Qed.

Lemma load_uncached_present st p text :
  fs E st !! p = Some text ->
  load_uncached E p st =
    match json_load E text with
    | Ok data => (Ok data, log_open E p st)
    | Raise e => (Raise e, log_open E p st)
    end.
Proof.
  intros Hp. unfold load_uncached, exists_, read_file, mbind, M_bind, bind.
  rewrite Hp. rewrite bool_decide_eq_true_2 by eauto. simpl. rewrite Hp.
  by destruct (json_load E text).
Qed.

Lemma load_hit st arg data :
  formats_cache E st = Some (arg, data) ->
  _load_audio_formats_dict E arg st = (Ok data, st).
Proof.
  intros Hc. unfold _load_audio_formats_dict. rewrite Hc.
  by rewrite decide_True.
Qed.

Lemma load_miss st arg :
  memo_key E st <> Some arg ->
  _load_audio_formats_dict E arg st =
    memoize E arg (load_uncached E (default AUDIO_FORMATS_SAVE_PATH arg) st).
Proof.
  unfold memo_key, _load_audio_formats_dict.
  destruct (formats_cache E st) as [[key data]|]; simpl; [|done].
  intros Hk. rewrite decide_False; [done | congruence].
Qed.

Lemma load_uncached_cache st p r st' :
  load_uncached E p st = (r, st') ->
  formats_cache E st' = formats_cache E st.
Proof.
  destruct (fs E st !! p) as [text|] eqn:Hp.
  - rewrite (load_uncached_present _ _ _ Hp).
    destruct (json_load E text); by intros [= <- <-].
  - rewrite (load_uncached_absent _ _ Hp). by intros [= <- <-].
Qed.

(** A successful call leaves its argument and result in the memo. *)
Lemma load_Ok_cached st arg data st' :
  _load_audio_formats_dict E arg st = (Ok data, st') ->
  formats_cache E st' = Some (arg, data).
Proof.
  unfold _load_audio_formats_dict.
  destruct (formats_cache E st) as [[key d]|] eqn:Hc.
  - destruct (decide (key = arg)) as [->|Hne].
    + by intros [= <- <-].
    + destruct (load_uncached E _ st) as [[d'|e] s]; simpl; [|done].
      by intros [= <- <-].
  - destruct (load_uncached E _ st) as [[d'|e] s]; simpl; [|done].
    by intros [= <- <-].
Qed.

Lemma check_formats_state supported i ip o op st r st' :
  check_formats E supported i ip o op st = (r, st') -> st' = st.
Proof.
  unfold check_formats, getitem, mbind, M_bind, bind, raise, ret.
  repeat (case_match; simplify_eq/=; try done); congruence.
Qed.

End Registry.

(** C1: once the dictionary is loaded, [_validate_audio_formats] checks in
    this order and stops at the first failure: the input format absent
    raises [AudioFormatUnsupportedError] for the input (whatever the output
    format is); else a false decode flag raises [AudioDemuxingError]; else
    the output format absent raises [AudioFormatUnsupportedError] for the
    output; else a false encode flag raises [AudioMuxingError]; with the
    input decodable and the output encodable nothing is raised. *)
Theorem C1_validate_check_order (E : Externals) (st st' : state E)
    (supported : gmap string (list bool))
    (i : string) (ip : path) (o : string) (op : path) :
  _load_audio_formats_dict E None st = (Ok supported, st') ->
  let run := _validate_audio_formats E i ip o op st in
  (supported !! i = None ->
   run = (Raise (AudioFormatUnsupportedError i ip), st')) /\
  (forall fi : list bool,
     supported !! i = Some fi -> fi !! 0 = Some false ->
     run = (Raise (AudioDemuxingError i ip), st')) /\
  (forall fi : list bool,
     supported !! i = Some fi -> fi !! 0 = Some true ->
     supported !! o = None ->
     run = (Raise (AudioFormatUnsupportedError o op), st')) /\
  (forall fi fo : list bool,
     supported !! i = Some fi -> fi !! 0 = Some true ->
     supported !! o = Some fo -> fo !! 1 = Some false ->
     run = (Raise (AudioMuxingError o op), st')) /\
  (forall fi fo : list bool,
     supported !! i = Some fi -> fi !! 0 = Some true ->
     supported !! o = Some fo -> fo !! 1 = Some true ->
     run = (Ok tt, st')).
Proof.
  intros Hload run. subst run.
  unfold _validate_audio_formats, mbind, M_bind, bind. rewrite Hload.
  unfold check_formats, getitem, mbind, M_bind, bind, raise, ret.
  repeat split.
  - intros ->. reflexivity.
  - intros fi -> ->. reflexivity.
  - intros fi -> -> ->. reflexivity.
  - intros fi fo -> -> -> ->. reflexivity.
  - intros fi fo -> -> -> ->. reflexivity.
Qed.

Lemma C1_validate_witness :
  let E := sample_externals "" SIX_SOURCES in
  let p := Path "song.wav" in
  let st := set_formats_cache E
              (Some (None, {[ "wav" := [true; true] ]})) (fresh E ∅) in
  _validate_audio_formats E "mp3" p "wav" p st
    = (Raise (AudioFormatUnsupportedError "mp3" p), st) /\
  _validate_audio_formats E "wav" p "wav" p st = (Ok tt, st).
Proof.
  intros E p st.
  assert (Hload : _load_audio_formats_dict E None st
                  = (Ok {[ "wav" := [true; true] ]}, st)) by reflexivity.
  split.
  - apply (C1_validate_check_order E st st _ "mp3" p "wav" p Hload).
    reflexivity.
  - apply (C1_validate_check_order E st st _ "wav" p "wav" p Hload)
      with (fi := [true; true]) (fo := [true; true]); reflexivity.
Defined.

(** A load that misses the memo and finds a file with the given text. *)
Ltac load_from_disk p text :=
  rewrite load_miss by (vm_compute; congruence);
  change (default AUDIO_FORMATS_SAVE_PATH (Some p)) with p;
  erewrite (load_uncached_present _ _ p text) by (vm_compute; reflexivity);
  reflexivity.

(** C4 (as stated, refuted): the memo is keyed by the argument.  After a
    successful load of [a.json], a load of [b.json] is not answered from
    the memo: it opens [b.json] and returns that file's dictionary, which
    differs from the one loaded first. *)
Lemma C4_other_path_is_read_again :
  let E := sample_externals "" SIX_SOURCES in
  let a := Path "a.json" in
  let b := Path "b.json" in
  let st0 := fresh E {[ a := "{wav: [true, true]}";
                        b := "{mp3: [true, false]}" ]} in
  exists (first second : gmap string (list bool)) (st1 st2 : state E),
    _load_audio_formats_dict E (Some a) st0 = (Ok first, st1) /\
    _load_audio_formats_dict E (Some b) st1 = (Ok second, st2) /\
    first !! "wav" = Some [true; true] /\
    second !! "wav" = None /\
    second <> first /\
    opened E st1 = [a] /\
    opened E st2 = [a; b].
Proof.
  intros E a b st0.
  eexists _, _, _, _.
  split; [|split].
  - load_from_disk a "{wav: [true, true]}".
  - load_from_disk b "{mp3: [true, false]}".
  - split; [reflexivity|]. split; [reflexivity|].
    split; [|split; reflexivity].
    intros Heq. apply (f_equal (fun m => m !! "wav")) in Heq.
    vm_compute in Heq. discriminate.
Qed.

(** C4 (amended): after a successful call to load, every later call with
    the same argument, made while the memo still holds that entry, returns
    the same dictionary and leaves the state as it is (no file is opened,
    whatever the disk holds by then); a call with another argument is not
    answered from the memo: it runs the loader on the new path and, when
    that succeeds, replaces the memo entry. *)
Theorem C4_memo_is_keyed_by_argument (E : Externals) (st st1 : state E)
    (arg : option path) (data : gmap string (list bool)) :
  _load_audio_formats_dict E arg st = (Ok data, st1) ->
  (forall st2 : state E,
     formats_cache E st2 = formats_cache E st1 ->
     _load_audio_formats_dict E arg st2 = (Ok data, st2)) /\
  (forall (arg' : option path) (st2 : state E),
     arg' <> arg ->
     formats_cache E st2 = formats_cache E st1 ->
     _load_audio_formats_dict E arg' st2 =
       memoize E arg'
         (load_uncached E (default AUDIO_FORMATS_SAVE_PATH arg') st2)).
Proof.
  intros Hload. apply load_Ok_cached in Hload. split.
  - intros st2 Hc. apply load_hit. congruence.
  - intros arg' st2 Hne Hc. apply load_miss.
    unfold memo_key. rewrite Hc, Hload. simpl. congruence.
Qed.

Lemma C4_memo_witness :
  let E := sample_externals "" SIX_SOURCES in
  let a := Path "a.json" in
  let st0 := fresh E {[ a := "{wav: [true, true]}" ]} in
  let st1 := set_formats_cache E
               (Some (Some a, {[ "wav" := [true; true] ]}))
               (log_open E a st0) in
  let st2 := set_fs E ∅ st1 in
  _load_audio_formats_dict E (Some a) st2
    = (Ok {[ "wav" := [true; true] ]}, st2).
Proof.
  intros E a st0 st1 st2.
  assert (Hload : _load_audio_formats_dict E (Some a) st0
                  = (Ok {[ "wav" := [true; true] ]}, st1)).
  { load_from_disk a "{wav: [true, true]}". }
  apply (proj1 (C4_memo_is_keyed_by_argument E st0 st1 (Some a) _ Hload)).
  reflexivity.
Defined.

(** C9 (the code departs from the claim and from its own docstring): the
    loader has no handler around [open] and [json.load], so on a call that
    the memo does not answer, with a file at the path, it raises exactly
    what reading and parsing the file raises.  For a file whose bytes are
    not text this is [UnicodeDecodeError], not the [JSONDecodeError] that
    the docstring of lines 119-122 promises for a file that is not valid
    JSON. *)
Theorem C9_load_raises_what_the_reader_raises (E : Externals) (st : state E)
    (arg : option path) (text : string) (e : exn) :
  memo_key E st <> Some arg ->
  fs E st !! default AUDIO_FORMATS_SAVE_PATH arg = Some text ->
  json_load E text = Raise e ->
  _load_audio_formats_dict E arg st
    = (Raise e, log_open E (default AUDIO_FORMATS_SAVE_PATH arg) st) /\
  (e <> JSONDecodeError ->
   forall st', _load_audio_formats_dict E arg st
               <> (Raise JSONDecodeError, st')).
Proof.
  intros Hmiss Hfile Hjson.
  assert (Hrun : _load_audio_formats_dict E arg st
    = (Raise e, log_open E (default AUDIO_FORMATS_SAVE_PATH arg) st)).
  { rewrite load_miss by done.
    rewrite (load_uncached_present E st _ text Hfile), Hjson. reflexivity. }
  split; [exact Hrun|].
  intros He st' Hrun'. rewrite Hrun in Hrun'. congruence.
Qed.

Lemma C9_not_text_file_witness :
  let E := sample_externals "" SIX_SOURCES in
  let a := Path "audio_formats.json" in
  let st := fresh E {[ a := String "255"%char "" ]} in
  _load_audio_formats_dict E None st
    = (Raise UnicodeDecodeError, log_open E a st) /\
  (UnicodeDecodeError <> JSONDecodeError ->
   forall st', _load_audio_formats_dict E None st
               <> (Raise JSONDecodeError, st')).
Proof.
  intros E a st.
  apply (C9_load_raises_what_the_reader_raises E st None
           (String "255"%char "") UnicodeDecodeError).
  - vm_compute. congruence.
  - vm_compute. reflexivity.
  - vm_compute. reflexivity.
Defined.

(** ** Texts and paths *)

Section Paths.

Abbreviation L := list_ascii_of_string.
Abbreviation S' := string_of_list_ascii.

Lemma L_app (a b : string) : L (a +:+ b) = L a ++ L b.
Proof. induction a as [|x a IH]; simpl; [done | by rewrite IH]. Qed.

Lemma L_length (s : string) : String.length s = length (L s).
Proof. induction s as [|x s IH]; simpl; [done | by rewrite IH]. Qed.

Lemma L_inj (a b : string) : L a = L b -> a = b.
Proof.
  intros H. rewrite <- (string_of_list_ascii_of_string a),
    <- (string_of_list_ascii_of_string b). by rewrite H.
Qed.

Lemma eqb_string_false (a b : string) : a <> b -> String.eqb a b = false.
Proof. intros H. by apply String.eqb_neq. Qed.

Lemma rfind_go_none c s : forall i f,
  Forall (differs c) s -> rfind_go c s i f = f.
Proof.
  induction s as [|x s IH]; intros i f Hs; simpl; [done|].
  inversion Hs as [|? ? Hx Hs']; subst. unfold differs in Hx.
  rewrite Hx. by apply IH.
Qed.

Lemma rfind_go_last c a b : forall i f,
  Forall (differs c) b ->
  rfind_go c (a ++ c :: b) i f = (i + Z.of_nat (length a))%Z.
Proof.
  induction a as [|x a IH]; intros i f Hb; simpl.
  - rewrite Ascii.eqb_refl, rfind_go_none by done. lia.
  - rewrite IH by done. lia.
Qed.

Lemma last_occurrence c (s : list ascii) :
  Forall (differs c) s \/
  exists a b, s = a ++ c :: b /\ Forall (differs c) b.
Proof.
  induction s as [|x s IH]; [by left|].
  destruct IH as [Hs|(a & b & -> & Hb)].
  - destruct (Ascii.eqb x c) eqn:Hx.
    + apply Ascii.eqb_eq in Hx as ->. right. by exists [], s.
    + left. by constructor.
  - right. by exists (x :: a), b.
Qed.

(** The name of a path splits into stem and suffix: either there is no
    suffix, or the name is [a ++ "." ++ b] with [a] and [b] non-empty and
    no dot in [b]. *)
Lemma suffix_stem_cases (p : path) :
  (suffix p = "" /\ stem p = name p) \/
  (exists a b, L (name p) = a ++ "."%char :: b /\ a <> [] /\ b <> [] /\
     Forall (differs "."%char) b /\
     suffix p = S' ("."%char :: b) /\ stem p = S' a).
Proof.
  unfold suffix, stem, rfind.
  destruct (last_occurrence "."%char (L (name p)))
    as [Hnone|(a & b & Hab & Hb)].
  - rewrite rfind_go_none by done. by left.
  - rewrite Hab, rfind_go_last by done.
    rewrite L_length, Hab, length_app. simpl length.
    destruct a as [|x a].
    + simpl. by left.
    + destruct b as [|y b].
      * replace ((_ <? _)%Z && (_ <? _)%Z) with false; [by left|].
        symmetry. apply andb_false_iff. right. apply Z.ltb_ge.
        simpl length. lia.
      * replace ((_ <? _)%Z && (_ <? _)%Z) with true.
        2:{ symmetry. apply andb_true_iff.
            split; apply Z.ltb_lt; simpl length; lia. }
        right. exists (x :: a), (y :: b).
        split; [done|]. split; [done|]. split; [done|]. split; [done|].
        unfold str_drop, str_take. rewrite Hab.
        replace (Z.to_nat (0 + Z.of_nat (length (x :: a))))
          with (length (x :: a)) by lia.
        rewrite drop_app_length, take_app_length. done.
Qed.

Lemma name_snoc r (t : list string) (x : string) :
  name (mk_path r (t ++ [x])) = x.
Proof. unfold name. simpl. apply last_last. Qed.

(** [with_suffix] with the canonical suffix keeps the stem. *)
Lemma with_suffix_wav (p : path) :
  name p <> "" ->
  with_suffix p ".wav" =
    Some (mk_path (root p) (removelast (tail p) ++ [stem p +:+ ".wav"])).
Proof.
  intros Hname. unfold with_suffix.
  change (contains_char "/"%char ".wav") with false.
  change ((negb (String.eqb ".wav" "") && negb (startswith "."%char ".wav"))
          || String.eqb ".wav" ".") with false.
  cbv iota. rewrite (eqb_string_false _ _ Hname).
  destruct (suffix_stem_cases p) as [[-> ->]|(a & b & Hab & _ & _ & _ & -> & ->)].
  - reflexivity.
  - rewrite eqb_string_false by done.
    do 4 f_equal. unfold str_take. f_equal.
    rewrite !L_length, list_ascii_of_string_of_list_ascii, Hab, length_app.
    simpl length.
    replace (length a + S (length b) - S (length b)) with (length a) by lia.
    by rewrite take_app_length.
Qed.

Lemma stem_nonempty (p : path) : name p <> "" -> L (stem p) <> [].
Proof.
  intros Hname.
  destruct (suffix_stem_cases p) as [[_ ->]|(a & b & _ & Ha & _ & _ & _ & ->)].
  - intros H. apply Hname. by apply L_inj.
  - by rewrite list_ascii_of_string_of_list_ascii.
Qed.

(** A name made of a non-empty stem and [.wav] has suffix [.wav] and that
    stem. *)
Lemma suffix_stem_of_wav r (t : list string) (x : string) :
  L x <> [] ->
  suffix (mk_path r (t ++ [x +:+ ".wav"])) = ".wav" /\
  stem (mk_path r (t ++ [x +:+ ".wav"])) = x.
Proof.
  intros Hx. unfold suffix, stem. rewrite name_snoc. unfold rfind.
  rewrite L_app. change (L ".wav") with ("."%char :: L "wav").
  rewrite rfind_go_last by (repeat constructor).
  rewrite L_length, L_app, length_app. simpl length.
  replace ((_ <? _)%Z && (_ <? _)%Z) with true.
  2:{ symmetry. apply andb_true_iff.
      destruct (L x); [done|]. split; apply Z.ltb_lt; simpl length; lia. }
  unfold str_drop, str_take. rewrite L_app.
  replace (Z.to_nat (0 + Z.of_nat (length (L x)))) with (length (L x)) by lia.
  rewrite drop_app_length, take_app_length.
  split; [reflexivity | apply string_of_list_ascii_of_string].
Qed.

End Paths.

(** ** Directories *)

Section Directories.

Context (E : Externals).
Implicit Types (st : state E) (p : path).

Lemma is_ancestor_parent p : tail p <> [] -> is_ancestor (parent p) p = true.
Proof.
  intros Ht. unfold is_ancestor, parent.
  destruct (tail p) as [|x t] eqn:Htail; [done|]. cbn [root tail].
  assert (Hsplit : x :: t = removelast (x :: t) ++ [List.last (x :: t) x])
    by (apply app_removelast_last; done).
  apply andb_true_iff. split; [apply andb_true_iff; split|].
  - by apply bool_decide_eq_true_2.
  - apply bool_decide_eq_true_2. exists [List.last (x :: t) x]. exact Hsplit.
  - apply Nat.ltb_lt. apply (f_equal length) in Hsplit.
    rewrite length_app in Hsplit. cbn [length] in Hsplit. cbn [length]. lia.
Qed.

(** The directory a file lies in exists. *)
Lemma dir_exists_beside st p :
  is_Some (fs E st !! p) -> dir_exists E st (parent p) = true.
Proof.
  intros Hfile. unfold dir_exists.
  destruct (decide (tail p = [])) as [Ht|Ht].
  - assert (Hpar : parent p = p) by (unfold parent; by rewrite Ht).
    rewrite Hpar, (bool_decide_eq_true_2 (tail p = [])) by done.
    by rewrite orb_true_r.
  - rewrite (bool_decide_eq_true_2 (set_Exists _ _)).
    + by rewrite orb_true_r.
    + exists p. split; [by apply elem_of_dom | by apply is_ancestor_parent].
Qed.


End Directories.

(** ** Conversion to WAV *)

Section Convert.

Context (E : Externals).
Implicit Types (st : state E) (p : path).

Lemma with_suffix_None p : name p = "" -> with_suffix p ".wav" = None.
Proof. intros H. unfold with_suffix. rewrite H. reflexivity. Qed.

Lemma with_suffix_Some p out :
  with_suffix p ".wav" = Some out ->
  name p <> "" /\
  out = mk_path (root p) (removelast (tail p) ++ [stem p +:+ ".wav"]).
Proof.
  intros H. destruct (decide (name p = "")) as [Hn|Hn].
  - by rewrite with_suffix_None in H.
  - rewrite with_suffix_wav in H by done. by injection H as <-.
Qed.

Lemma sibling_facts p out :
  with_suffix p ".wav" = Some out ->
  suffix out = ".wav" /\ stem out = stem p /\ parent out = parent p.
Proof.
  intros (Hn & ->)%with_suffix_Some.
  destruct (suffix_stem_of_wav (root p) (removelast (tail p)) (stem p)
              (stem_nonempty p Hn)) as [Hs Ht].
  split; [done|]. split; [done|].
  unfold parent. cbn [tail root].
  destruct (tail p) as [|x t] eqn:Htail.
  { exfalso. apply Hn. unfold name. by rewrite Htail. }
  destruct (removelast (x :: t) ++ [stem p +:+ ".wav"]) as [|y t'] eqn:Happ.
  { by apply app_eq_nil in Happ as [_ [=]]. }
  rewrite <- Happ. by rewrite removelast_last.
Qed.

Lemma convert_canonical st p keep :
  Py.lower (suffix p) = ".wav" -> convert_to_wav E p keep st = (Ok p, st).
Proof. intros H. unfold convert_to_wav. rewrite H. reflexivity. Qed.

Lemma sibling_differs p out :
  Py.lower (suffix p) <> ".wav" -> with_suffix p ".wav" = Some out ->
  out <> p.
Proof.
  intros Hp Hout ->. apply sibling_facts in Hout as (Hs & _).
  apply Hp. rewrite Hs. reflexivity.
Qed.

(** The run of a conversion on a file that is there and decodes. *)
Lemma convert_run st p (keep : bool) text audio out :
  Py.lower (suffix p) <> ".wav" ->
  with_suffix p ".wav" = Some out ->
  fs E st !! p = Some text ->
  pydub_decode E p text = Some audio ->
  convert_to_wav E p keep st =
    (Ok out,
     set_fs E (if keep then <[out := pydub_encode_wav E audio]> (fs E st)
               else delete p (<[out := pydub_encode_wav E audio]> (fs E st)))
            (log_open E p st)).
Proof.
  intros Hp Hout Hfile Hdec.
  pose proof (sibling_differs p out Hp Hout) as Hne.
  destruct (sibling_facts p out Hout) as (_ & _ & Hpar).
  assert (Hdir : dir_exists E (log_open E p st) (parent out) = true).
  { rewrite Hpar. apply dir_exists_beside. cbn [fs log_open]. eauto. }
  unfold convert_to_wav. rewrite eqb_string_false by done. rewrite Hout.
  unfold from_file, read_file, write_file, unlink, mbind, M_bind, bind, ret.
  rewrite Hfile, Hdec, Hdir. cbn [fs log_open set_fs].
  destruct keep; cbn [negb].
  - reflexivity.
  - cbn [fs set_fs]. rewrite lookup_insert_ne by done. rewrite Hfile.
    reflexivity.
Qed.

(** Whatever happens, a returned path is the input or its sibling. *)
Lemma convert_returns st p keep out st' :
  convert_to_wav E p keep st = (Ok out, st') ->
  (Py.lower (suffix p) = ".wav" /\ out = p) \/
  (Py.lower (suffix p) <> ".wav" /\ with_suffix p ".wav" = Some out).
Proof.
  destruct (decide (Py.lower (suffix p) = ".wav")) as [Hc|Hc].
  - rewrite convert_canonical by done. intros [= <- <-]. by left.
  - unfold convert_to_wav. rewrite eqb_string_false by done.
    destruct (with_suffix p ".wav") as [out'|]; [|done].
    unfold from_file, read_file, write_file, unlink, mbind, M_bind, bind, ret,
      raise.
    intros H. right. split; [done|]. f_equal.
    repeat (case_match; simplify_eq/=; try done).
Qed.

End Convert.

(** C5: on an input whose suffix lower-cases to [.wav], [convert_to_wav]
    returns the input path and leaves the state, hence every file, as it
    was, whatever [keep_input_file] is; converting the returned path again
    gives the same path and again changes nothing. *)
Theorem C5_convert_canonical_is_noop (E : Externals) (st : state E)
    (p : path) (keep keep' : bool) :
  Py.lower (suffix p) = ".wav" ->
  convert_to_wav E p keep st = (Ok p, st) /\
  (out ← convert_to_wav E p keep; convert_to_wav E out keep') st
    = (Ok p, st).
Proof.
  intros Hp. split.
  - by apply convert_canonical.
  - unfold mbind, M_bind, bind. by rewrite !convert_canonical.
Qed.

Lemma C5_convert_canonical_witness :
  let E := sample_externals "" SIX_SOURCES in
  let p := Path "music/Song.WaV" in
  let st := fresh E {[ p := "pcm" ]} in
  convert_to_wav E p false st = (Ok p, st) /\
  (out ← convert_to_wav E p false; convert_to_wav E out false) st
    = (Ok p, st).
Proof.
  intros E p st.
  apply (C5_convert_canonical_is_noop E st p false false).
  vm_compute. reflexivity.
Defined.



(** C10: the path [convert_to_wav] returns has a suffix that lower-cases
    to [.wav]; an input whose suffix already does, such as [.WAV], is
    returned as it is, with its own spelling of the suffix. *)
Theorem C10_returned_suffix_lowers_to_wav (E : Externals) (st st' : state E)
    (p out : path) (keep : bool) :
  convert_to_wav E p keep st = (Ok out, st') ->
  Py.lower (suffix out) = ".wav" /\
  (Py.lower (suffix p) = ".wav" ->
   out = p /\ suffix out = suffix p /\ st' = st).
Proof.
  intros Hrun. split.
  - apply convert_returns in Hrun as [[Hc ->]|[_ Hout]]; [done|].
    apply sibling_facts in Hout as (-> & _). reflexivity.
  - intros Hc. rewrite convert_canonical in Hrun by done.
    by injection Hrun as <- <-.
Qed.

Lemma C10_upper_case_witness :
  let E := sample_externals "" SIX_SOURCES in
  let p := Path "song.WAV" in
  let st := fresh E {[ p := "pcm" ]} in
  convert_to_wav E p false st = (Ok p, st) /\
  suffix p = ".WAV" /\
  Py.lower (suffix p) = ".wav".
Proof.
  intros E p st.
  assert (Hrun : convert_to_wav E p false st = (Ok p, st))
    by (vm_compute; reflexivity).
  split; [exact Hrun|]. split; [vm_compute; reflexivity|].
  exact (proj1 (C10_returned_suffix_lowers_to_wav E st st p p false Hrun)).
Defined.

(** ** Saving an isolated track *)

Section SaveTrack.

Abbreviation L := list_ascii_of_string.
Abbreviation S' := string_of_list_ascii.

Lemma free_of_Forall c (s : string) :
  free_of c s <-> Forall (differs c) (L s).
Proof.
  unfold free_of, contains_char, differs.
  induction (L s) as [|x l IH]; simpl.
  - split; [constructor | done].
  - rewrite orb_false_iff, IH, Forall_cons, (Ascii.eqb_sym c x). tauto.
Qed.

Lemma free_of_app c (a b : string) :
  free_of c a -> free_of c b -> free_of c (a +:+ b).
Proof.
  rewrite !free_of_Forall, L_app. apply Forall_app_2.
Qed.

Lemma split_go_free sep (s : list ascii) : forall cur,
  Forall (differs sep) s -> Py.split_go sep cur s = [rev cur ++ s].
Proof.
  induction s as [|x s IH]; intros cur Hs; simpl.
  - by rewrite app_nil_r.
  - inversion Hs as [|? ? Hx Hs']; subst. unfold differs in Hx.
    rewrite Hx, IH by done. simpl. by rewrite <- app_assoc.
Qed.

Lemma split_free sep (s : string) : free_of sep s -> Py.split sep s = [s].
Proof.
  intros H%free_of_Forall. unfold Py.split.
  rewrite split_go_free by done. simpl.
  by rewrite string_of_list_ascii_of_string.
Qed.

Lemma parse_tail_single (s : string) :
  free_of "/"%char s -> keep_part s = true -> parse_tail s = [s].
Proof.
  intros Hfree Hkeep. unfold parse_tail. rewrite split_free by done.
  simpl. by rewrite Hkeep.
Qed.

Lemma startswith_free c (s : string) : free_of c s -> startswith c s = false.
Proof.
  unfold free_of, contains_char, startswith. destruct s as [|x s]; [done|].
  simpl. rewrite orb_false_iff, (Ascii.eqb_sym c x). tauto.
Qed.

Lemma last_Forall {A} (P : A -> Prop) (l : list A) d :
  Forall P l -> P d -> P (List.last l d).
Proof.
  intros Hl Hd. induction Hl as [|x l Hx Hl IH]; [done|].
  simpl. by destruct l.
Qed.

Lemma name_free (p : path) : wf_path p -> free_of "/"%char (name p).
Proof.
  intros Hwf. unfold name.
  apply (last_Forall (free_of "/"%char)); [|done].
  eapply Forall_impl; [exact Hwf|]. by intros x [_ Hx].
Qed.

Lemma stem_free (p : path) : wf_path p -> free_of "/"%char (stem p).
Proof.
  intros Hname%name_free.
  destruct (suffix_stem_cases p) as [[_ ->]|(a & b & Hab & _ & _ & _ & _ & ->)].
  - done.
  - apply free_of_Forall in Hname. rewrite Hab in Hname.
    apply Forall_app in Hname as [Ha _].
    apply free_of_Forall. by rewrite list_ascii_of_string_of_list_ascii.
Qed.

(** The file name built on line 50 (line 69) is one path component. *)
Lemma new_filename_component (x track : string) :
  free_of "/"%char x -> free_of "/"%char track ->
  let new_filename := x +:+ "_" +:+ track +:+ ".wav" in
  free_of "/"%char new_filename /\ keep_part new_filename = true.
Proof.
  intros Hx Ht new_filename. split.
  - repeat apply free_of_app; done.
  - assert (Hlen : 5 <= String.length new_filename).
    { unfold new_filename. rewrite L_length, !L_app, !length_app.
      simpl length. lia. }
    unfold keep_part. apply andb_true_iff.
    split; apply negb_true_iff, eqb_string_false; intros Heq;
      rewrite Heq in Hlen; simpl in Hlen; lia.
Qed.

Lemma parent_snoc (d : path) (x : string) :
  parent (mk_path (root d) (tail d ++ [x])) = d.
Proof.
  unfold parent. cbn [tail root].
  destruct (tail d ++ [x]) as [|y t] eqn:Happ.
  { by apply app_eq_nil in Happ as [_ [=]]. }
  rewrite <- Happ, removelast_last. by destruct d.
Qed.

(** The name of a path never reads as its own stem followed by an
    underscore. *)
Lemma name_not_stem_underscore (p : path) (rest : string) :
  name p <> stem p +:+ "_" +:+ rest.
Proof.
  intros Heq. apply (f_equal L) in Heq. rewrite !L_app in Heq.
  destruct (suffix_stem_cases p) as [[_ Hs]|(a & b & Hab & _ & _ & _ & _ & Hs)].
  - rewrite Hs in Heq. apply (f_equal length) in Heq.
    rewrite !length_app in Heq. simpl in Heq. lia.
  - rewrite Hs, list_ascii_of_string_of_list_ascii, Hab in Heq.
    apply app_inv_head in Heq. simpl in Heq. discriminate.
Qed.

End SaveTrack.

Section ParsedPaths.

Lemma split_go_pieces sep (s : list ascii) : forall cur piece,
  Forall (differs sep) cur ->
  piece ∈ Py.split_go sep cur s -> Forall (differs sep) piece.
Proof.
  induction s as [|x s IH]; intros cur piece Hcur; simpl.
  - intros ->%list_elem_of_singleton. by apply Forall_rev.
  - destruct (Ascii.eqb x sep) eqn:Hx.
    + intros [->|Hin]%elem_of_cons.
      * by apply Forall_rev.
      * eapply IH; [constructor | done].
    + apply IH. by constructor.
Qed.

Lemma parse_tail_wf (rel : string) :
  Forall (fun x => keep_part x = true /\ free_of "/"%char x) (parse_tail rel).
Proof.
  unfold parse_tail. apply Forall_forall. intros x Hx.
  apply list_elem_of_In, filter_In in Hx as [Hin Hkeep]. split; [done|].
  apply list_elem_of_In in Hin. unfold Py.split in Hin.
  apply list_elem_of_fmap in Hin as (l & -> & Hl).
  apply free_of_Forall. rewrite list_ascii_of_string_of_list_ascii.
  eapply split_go_pieces; [constructor | exact Hl].
Qed.

(** Every parsed path is well formed. *)
Lemma Path_wf (s : string) : wf_path (Path s).
Proof.
  unfold wf_path, Path. destruct (splitroot s) as [r rel].
  apply parse_tail_wf.
Qed.

End ParsedPaths.

(** C8 (the code departs from the claim and from its own docstring): the
    track name is pasted into a file name that the [/] operator of line 51
    (line 70) then parses as a path, so a slash in it names a
    sub-directory.  For the base path [song.wav] and the track name [a/b],
    in both copies of the function: when no directory [song_a] exists the
    save raises and nothing is written; when it exists the track is
    written to [b.wav] inside [song_a], which is neither beside the base
    path nor named [song_a/b.wav]. *)
Theorem C8_slash_in_track_name_leaves_directory :
  let E := sample_externals "" SIX_SOURCES in
  let base := Path "song.wav" in
  let st := fresh E {[ base := "pcm" ]} in
  let st2 := fresh E {[ base := "pcm"; Path "song_a/notes.txt" := "x" ]} in
  _save_isolated_track' E "stem" "a/b" 44100%Z base st
    = (Raise RuntimeError, st) /\
  _save_isolated_track E "stem" "a/b" 44100%Z base st
    = (Raise RuntimeError, st) /\
  exists track_path st',
    _save_isolated_track' E "stem" "a/b" 44100%Z base st2
      = (Ok track_path, st') /\
    _save_isolated_track E "stem" "a/b" 44100%Z base st2
      = (Ok track_path, st') /\
    track_path = mk_path "" ["song_a"; "b.wav"] /\
    fs E st' !! track_path = Some "RIFFstem" /\
    parent track_path <> parent base /\
    name track_path <> stem base +:+ "_" +:+ "a/b" +:+ ".wav".
Proof.
  intros E base st st2.
  split; [vm_compute; reflexivity|].
  split; [vm_compute; reflexivity|].
  exists (mk_path "" ["song_a"; "b.wav"]),
    (set_fs E (<[mk_path "" ["song_a"; "b.wav"] := "RIFFstem"]> (fs E st2))
       st2).
  split; [vm_compute; reflexivity|].
  split; [vm_compute; reflexivity|].
  split; [reflexivity|].
  split; [vm_compute; reflexivity|].
  split; vm_compute; congruence.
Qed.

(** ** Isolating the guitar *)

Section Isolate.

Context (E : Externals).
Implicit Types (st : state E) (p : path).


Lemma list_index_lt x xs k : list_index x xs = Some k -> k < length xs.
Proof.
  revert k. induction xs as [|y ys IH]; intros k; simpl; [done|].
  destruct (String.eqb y x).
  - intros [= <-]. lia.
  - destruct (list_index x ys) as [j|]; simpl; [|done].
    intros [= <-]. specialize (IH j eq_refl). lia.
Qed.

Lemma get_model_run st :
  _get_htdemucs_model E st =
    (Ok (current_model E st),
     set_model_cache E (Some (current_model E st)) st).
Proof.
  unfold _get_htdemucs_model, current_model.
  destruct st as [f d o r c [model|]]; reflexivity.
Qed.

Lemma torchaudio_load_run st p bytes r :
  fs E st !! p = Some bytes -> torchaudio_decode E bytes = Some r ->
  torchaudio_load E p st = (Ok r, log_open E p st).
Proof. intros Hp Hd. unfold torchaudio_load. by rewrite Hp, Hd. Qed.

Lemma save_run st (w : Tensor E) track (rate : SampleRate E) p :
  let track_path :=
    joinpath (parent p) (stem p +:+ "_" +:+ track +:+ ".wav") in
  _save_isolated_track' E w track rate p st =
    match torchaudio_encode E w rate with
    | None => (Raise ValueError, st)
    | Some bytes =>
        if dir_exists E st (parent track_path)
        then (Ok track_path, set_fs E (<[track_path := bytes]> (fs E st)) st)
        else (Raise RuntimeError, st)
    end.
Proof.
  intros track_path.
  unfold _save_isolated_track', torchaudio_save, mbind, M_bind, bind.
  fold track_path.
  destruct (torchaudio_encode E w rate); [|reflexivity].
  destruct (dir_exists E st (parent track_path)); reflexivity.
Qed.

(** The whole run on a file that is there and decodes, up to the save. *)
Lemma isolate_guitar_run st p bytes waveform rate :
  fs E st !! p = Some bytes ->
  torchaudio_decode E bytes = Some (waveform, rate) ->
  let model := current_model E st in
  let st1 := set_random_state E (S (random_state E st))
               (set_model_cache E (Some model) (log_open E p st)) in
  isolate_guitar E p st =
    match apply_model model waveform (randint E (random_state E st)) with
    | Raise e => (Raise e, st1)
    | Ok stems =>
        match list_index "guitar" (sources model) with
        | None => (Raise ValueError, st1)
        | Some k =>
            match stems !! k with
            | None => (Raise IndexError, st1)
            | Some g =>
                _save_isolated_track' E (squeeze0 E g) "guitar" rate p st1
            end
        end
    end.
Proof.
  intros Hp Hd model st1.
  unfold isolate_guitar, mbind, M_bind, bind.
  rewrite (torchaudio_load_run st p bytes _ Hp Hd).
  unfold _isolate_guitar_waveform, mbind, M_bind, bind.
  rewrite get_model_run. unfold random_randint.
  change (current_model E (log_open E p st)) with model.
  change (set_random_state E _ _) with st1.
  change (random_state E (set_model_cache E _ _)) with (random_state E st).
  destruct (apply_model model waveform (randint E (random_state E st)))
    as [stems|e]; [|reflexivity].
  destruct (list_index "guitar" (sources model)) as [k|]; [|reflexivity].
  unfold getitem. destruct (stems !! k); reflexivity.
Qed.

End Isolate.



(** * Further properties of the code *)

(** ** The dictionary built from a listing *)

Section Listing.

Implicit Types (formats : gmap string (list bool)) (lines : list string).

Lemma parse_line_lookup formats line (k : string) :
  parse_line formats line !! k =
    if bool_decide (k ∈ line_aliases line) then Some (line_flags line)
    else formats !! k.
Proof.
  unfold parse_line, line_aliases, line_flags.
  destruct (Re.rmatch FORMATS_LINE line) as [m|].
  - apply bind_names_lookup.
  - rewrite bool_decide_eq_false_2; [done | apply not_elem_of_nil].
Qed.

Lemma fold_parse_snoc lines line formats :
  fold_left parse_line (lines ++ [line]) formats =
    parse_line (fold_left parse_line lines formats) line.
Proof. by rewrite fold_left_app. Qed.

(** Where a binding of the result comes from. *)
Lemma parse_lines_origin lines formats (k : string) v :
  fold_left parse_line lines formats !! k = Some v ->
  formats !! k = Some v \/
  exists line, line ∈ lines /\ k ∈ line_aliases line /\ v = line_flags line.
Proof.
  induction lines as [|line lines IH] using rev_ind.
  - by left.
  - rewrite fold_parse_snoc, parse_line_lookup.
    destruct (decide (k ∈ line_aliases line)) as [Hin|Hout].
    + rewrite bool_decide_eq_true_2 by done. intros [= <-].
      right. exists line. split; [|done].
      apply elem_of_app. right. apply list_elem_of_here.
    + rewrite bool_decide_eq_false_2 by done. intros H.
      destruct (IH H) as [Hf|(ln & Hln & Hk & Hv)]; [by left|].
      right. exists ln. split; [|done]. apply elem_of_app. by left.
Qed.

Lemma parse_lines_bound lines formats (k : string) :
  is_Some (fold_left parse_line lines formats !! k) <->
  is_Some (formats !! k) \/ exists line, line ∈ lines /\ k ∈ line_aliases line.
Proof.
  induction lines as [|line lines IH] using rev_ind.
  - simpl. split; [by left|]. intros [H|(ln & Hln & _)]; [done|].
    by apply elem_of_nil in Hln.
  - rewrite fold_parse_snoc, parse_line_lookup.
    destruct (decide (k ∈ line_aliases line)) as [Hin|Hout].
    + rewrite bool_decide_eq_true_2 by done. split; [|eauto].
      intros _. right. exists line. split; [|done].
      apply elem_of_app. right. apply list_elem_of_here.
    + rewrite bool_decide_eq_false_2 by done. rewrite IH. split.
      * intros [H|(ln & Hln & Hk)]; [by left|].
        right. exists ln. split; [|done]. apply elem_of_app. by left.
      * intros [H|(ln & Hln & Hk)]; [by left|].
        apply elem_of_app in Hln as [Hln|Hln].
        -- right. by exists ln.
        -- apply list_elem_of_singleton in Hln as ->. done.
Qed.

Lemma line_aliases_matches line (k : string) :
  k ∈ line_aliases line -> line_matches line = true.
Proof.
  unfold line_aliases, line_matches.
  destruct (Re.rmatch FORMATS_LINE line).
  - intros _. apply bool_decide_eq_true_2. eauto.
  - intros H. by apply elem_of_nil in H.
Qed.

Lemma line_flags_matches line :
  line_matches line = true -> exists d e, line_flags line = [d; e].
Proof.
  unfold line_flags, line_matches. intros [m Hm]%bool_decide_eq_true_1.
  rewrite Hm. eauto.
Qed.

Lemma parse_line_skip formats line :
  line_matches line = false -> parse_line formats line = formats.
Proof.
  unfold line_matches, parse_line. intros H%bool_decide_eq_false_1.
  destruct (Re.rmatch FORMATS_LINE line); [|done].
  exfalso. apply H. eauto.
Qed.

Lemma fold_parse_filter lines formats :
  fold_left parse_line (List.filter line_matches lines) formats =
  fold_left parse_line lines formats.
Proof.
  revert formats. induction lines as [|line lines IH]; intros formats.
  - done.
  - simpl. destruct (line_matches line) eqn:Hm; simpl.
    + apply IH.
    + rewrite IH. by rewrite parse_line_skip.
Qed.

(** The aliases of a line hold neither whitespace nor a comma. *)
Lemma line_alias_chars line (k : string) :
  k ∈ line_aliases line ->
  Forall (fun x => Py.isspace x = false /\ differs ","%char x)
         (list_ascii_of_string k).
Proof.
  unfold line_aliases.
  destruct (Re.rmatch FORMATS_LINE line) as [m|] eqn:Hm.
  2:{ intros H. by apply elem_of_nil in H. }
  intros (name & -> & Hname)%list_elem_of_fmap.
  rewrite (alias_strip_id line m name Hm Hname).
  destruct (formats_line_groups line m Hm) as (g1 & g2 & g3 & -> & Hg3).
  apply Forall_and. split.
  - by eapply split_chars.
  - unfold Py.split in Hname.
    apply list_elem_of_fmap in Hname as (l & -> & Hl).
    rewrite list_ascii_of_string_of_list_ascii.
    eapply split_go_pieces; [constructor | exact Hl].
Qed.

End Listing.

(** ** The shape of a line the pattern accepts *)

Section AcceptedLines.

Lemma backtrack_bounds {A} lo (k : nat -> option A) n a :
  Re.backtrack lo k n = Some a ->
  exists j, lo <= j /\ j <= n /\ k j = Some a.
Proof.
  induction n as [|n IH]; simpl.
  - destruct (0 <? lo) eqn:Hlo; [done|]. apply Nat.ltb_ge in Hlo.
    destruct (k 0) eqn:Hk; [|done].
    intros [= ->]. exists 0. split; [lia|]. split; [lia | done].
  - destruct (S n <? lo) eqn:Hlo; [done|]. apply Nat.ltb_ge in Hlo.
    destruct (k (S n)) eqn:Hk.
    + intros [= ->]. exists (S n). split; [lia|]. split; [lia | done].
    + intros H. destruct (IH H) as (j & Hlo' & Hj & Hkj).
      exists j. split; [lia|]. split; [lia | done].
Qed.

(** The matcher only accepts what the pattern describes. *)
Lemma go_shape its : forall pos s caps,
  Re.go its pos s = Some caps -> shape its pos s caps.
Proof.
  induction its as [|it r IH]; intros pos s caps; simpl.
  - by intros [= <-].
  - destruct it as [| |g q c].
    + destruct (pos =? 0) eqn:Hpos; [|done].
      apply Nat.eqb_eq in Hpos. intros H. split; [done | by apply IH].
    + destruct (Re.at_end s) eqn:Hend; [|done].
      intros H. split; [done | by apply IH].
    + intros H. apply backtrack_bounds in H as (n & Hlo & Hhi & Hk).
      destruct (Re.go r (pos + n) (drop n s)) as [caps'|] eqn:Hgo; [|done].
      simpl in Hk. injection Hk as <-.
      exists n, caps'. split; [done|]. split; [done|].
      split; [by apply IH | done].
Qed.

Lemma span_first c (s : list ascii) :
  1 <= Re.span c s -> exists x s', s = x :: s' /\ c x = true.
Proof.
  destruct s as [|x s']; simpl; [lia|].
  destruct (c x) eqn:Hx; [eauto | lia].
Qed.

Lemma any_of_one d extra x :
  Re.any_of [d] extra x = true -> x = d \/ extra x = true.
Proof.
  unfold Re.any_of. simpl. rewrite orb_false_r.
  intros [H%Ascii.eqb_eq|H]%orb_true_iff; [by left | by right].
Qed.

Lemma one_run c (s : list ascii) n :
  Re.q_min Re.One <= n -> n <= Re.q_max Re.One (Re.span c s) ->
  exists x s', s = x :: s' /\ c x = true /\ n = 1.
Proof.
  unfold Re.q_min, Re.q_max. intros Hlo Hhi.
  destruct (span_first c s ltac:(lia)) as (x & s' & -> & Hx).
  exists x, s'. split; [done|]. split; [done | lia].
Qed.

(** A run of one or more characters of a class, split off a text. *)
Lemma plus_run c (s : list ascii) n :
  1 <= n -> n <= Re.span c s ->
  take n s <> [] /\ Forall (fun x => c x = true) (take n s).
Proof.
  intros Hlo Hhi. split; [|by apply take_span].
  destruct s as [|x s]; simpl in *; [lia|].
  destruct n; [lia | done].
Qed.

End AcceptedLines.

(** X1: a line the parser accepts reads: optional whitespace, one
    character that is [D] or whitespace, one that is [E] or whitespace,
    whitespace, a run without whitespace (the alias list), whitespace
    again, and a remainder.  The three groups are those two characters and
    the alias list, so the first flag of the line is true exactly when the
    first of them is [D], the second when the other is [E]. *)
Theorem X1_accepted_line_shape (line : string) (m : list string) :
  Re.rmatch FORMATS_LINE line = Some m ->
  exists (w0 : list ascii) (c1 c2 : ascii) (w1 nm w2 rest : list ascii),
    list_ascii_of_string line = w0 ++ c1 :: c2 :: w1 ++ nm ++ w2 ++ rest /\
    Forall (fun x => Py.isspace x = true) w0 /\
    (c1 = "D"%char \/ Py.isspace c1 = true) /\
    (c2 = "E"%char \/ Py.isspace c2 = true) /\
    w1 <> [] /\ Forall (fun x => Py.isspace x = true) w1 /\
    nm <> [] /\ Forall (fun x => Py.isspace x = false) nm /\
    w2 <> [] /\ Forall (fun x => Py.isspace x = true) w2 /\
    m = [String c1 ""; String c2 ""; string_of_list_ascii nm] /\
    line_flags line = [Ascii.eqb c1 "D"; Ascii.eqb c2 "E"].
Proof.
  intros Hm. unfold line_flags. rewrite Hm. revert Hm.
  unfold Re.rmatch.
  destruct (Re.go FORMATS_LINE 0 (list_ascii_of_string line))
    as [caps|] eqn:Hgo; [|done].
  intros [= <-]. apply go_shape in Hgo.
  unfold FORMATS_LINE in Hgo. cbn [shape] in Hgo.
  set (s := list_ascii_of_string line) in *.
  destruct Hgo as (_ & n0 & k0 & _ & H0 & Hgo & ->).
  destruct Hgo as (n1 & k1 & L1 & H1 & Hgo & ->).
  destruct (one_run _ _ _ L1 H1) as (c1 & s2 & Hs1 & Hc1 & ->).
  rewrite Hs1 in Hgo. cbn [drop take] in Hgo. rewrite drop_0 in Hgo.
  destruct Hgo as (n2 & k2 & L2 & H2 & Hgo & ->).
  destruct (one_run _ _ _ L2 H2) as (c2 & s3 & Hs2 & Hc2 & ->).
  rewrite Hs2 in Hgo. cbn [drop take] in Hgo. rewrite drop_0 in Hgo.
  destruct Hgo as (n3 & k3 & L3 & H3 & Hgo & ->).
  destruct (plus_run _ s3 n3 L3 H3) as [Hw1 Hw1s].
  destruct Hgo as (n4 & k4 & L4 & H4 & Hgo & ->).
  destruct (plus_run _ _ n4 L4 H4) as [Hnm Hnms].
  destruct Hgo as (n5 & k5 & L5 & H5 & Hgo & ->).
  destruct (plus_run _ _ n5 L5 H5) as [Hw2 Hw2s].
  destruct Hgo as (n6 & k6 & _ & _ & (_ & ->) & ->).
  exists (take n0 s), c1, c2, (take n3 s3), (take n4 (drop n3 s3)),
    (take n5 (drop n4 (drop n3 s3))), (drop n5 (drop n4 (drop n3 s3))).
  split.
  { rewrite !take_drop, <- Hs2, <- Hs1. by rewrite take_drop. }
  split; [by apply take_span|].
  split; [by apply any_of_one|].
  split; [by apply any_of_one|].
  split; [done|]. split; [done|].
  split; [done|].
  split.
  { eapply Forall_impl; [exact Hnms|]. simpl. intros x Hx.
    by apply negb_true_iff. }
  split; [done|]. split; [done|].
  rewrite Hs1, Hs2. cbn [take]. rewrite ?take_0.
  cbn [map string_of_list_ascii].
  split; [reflexivity|].
  unfold Re.group. cbn [nth Nat.sub]. simpl String.eqb.
  by destruct (Ascii.eqb c1 "D"), (Ascii.eqb c2 "E").
Qed.

Lemma X1_accepted_line_witness :
  exists (w0 : list ascii) (c1 c2 : ascii) (w1 nm w2 rest : list ascii),
    list_ascii_of_string " D  aac   raw ADTS"
      = w0 ++ c1 :: c2 :: w1 ++ nm ++ w2 ++ rest /\
    Forall (fun x => Py.isspace x = true) w0 /\
    (c1 = "D"%char \/ Py.isspace c1 = true) /\
    (c2 = "E"%char \/ Py.isspace c2 = true) /\
    w1 <> [] /\ Forall (fun x => Py.isspace x = true) w1 /\
    nm <> [] /\ Forall (fun x => Py.isspace x = false) nm /\
    w2 <> [] /\ Forall (fun x => Py.isspace x = true) w2 /\
    ["D"; " "; "aac"]
      = [String c1 ""; String c2 ""; string_of_list_ascii nm] /\
    line_flags " D  aac   raw ADTS" = [Ascii.eqb c1 "D"; Ascii.eqb c2 "E"].
Proof.
  apply (X1_accepted_line_shape " D  aac   raw ADTS" ["D"; " "; "aac"]).
  vm_compute. reflexivity.
Defined.

(** X2: every entry of the dictionary built from a listing comes from a
    line of the listing that lists its key, and its value is the
    two-element list of that line's flags, never shorter or longer. *)
Theorem X2_built_values_are_flag_pairs (stdout : string) (k : string)
    (v : list bool) :
  parse_formats stdout !! k = Some v ->
  exists line d e,
    line ∈ Py.splitlines stdout /\ k ∈ line_aliases line /\
    v = line_flags line /\ v = [d; e].
Proof.
  unfold parse_formats. intros H.
  apply parse_lines_origin in H as [H|(line & Hline & Hk & ->)].
  - by rewrite lookup_empty in H.
  - destruct (line_flags_matches line (line_aliases_matches line k Hk))
      as (d & e & Hde).
    exists line, d, e. done.
Qed.

Lemma X2_built_values_witness :
  exists line d e,
    line ∈ Py.splitlines "DE  wav,wave  WAV format" /\
    "wave" ∈ line_aliases line /\
    [true; true] = line_flags line /\ [true; true] = [d; e].
Proof.
  apply (X2_built_values_are_flag_pairs "DE  wav,wave  WAV format" "wave").
  vm_compute. reflexivity.
Defined.

(** X3: no key of the built dictionary holds a whitespace character or a
    comma. *)
Theorem X3_built_keys_have_no_space_no_comma (stdout : string) (k : string)
    (v : list bool) :
  parse_formats stdout !! k = Some v ->
  Forall (fun x => Py.isspace x = false /\ differs ","%char x)
         (list_ascii_of_string k).
Proof.
  unfold parse_formats. intros H.
  apply parse_lines_origin in H as [H|(line & _ & Hk & _)].
  - by rewrite lookup_empty in H.
  - by eapply line_alias_chars.
Qed.

Lemma X3_built_keys_witness :
  Forall (fun x => Py.isspace x = false /\ differs ","%char x)
         (list_ascii_of_string "wave").
Proof.
  apply (X3_built_keys_have_no_space_no_comma
           "DE  wav,wave  WAV format" "wave" [true; true]).
  vm_compute. reflexivity.
Defined.

(** X4: a name is a key of the built dictionary exactly when some line of
    the listing matches the pattern and lists it; nothing else is ever
    bound. *)
Theorem X4_built_keys_are_the_listed_aliases (stdout : string) (k : string) :
  is_Some (parse_formats stdout !! k) <->
  exists line, line ∈ Py.splitlines stdout /\ k ∈ line_aliases line.
Proof.
  unfold parse_formats. rewrite parse_lines_bound. split.
  - intros [H|H]; [|done]. rewrite lookup_empty in H. by destruct H.
  - intros H. by right.
Qed.

(** X5: lines that do not match the pattern are skipped: the dictionary
    is the one built from the matching lines alone, in their order. *)
Theorem X5_only_matching_lines_count (stdout : string) :
  parse_formats stdout =
  fold_left parse_line (List.filter line_matches (Py.splitlines stdout)) ∅.
Proof. unfold parse_formats. symmetry. apply fold_parse_filter. Qed.

(** ** Saving, loading and validating the registry *)

Section RegistryFile.

Context (E : Externals).
Implicit Types (st : state E) (arg : option path) (p : path).

Lemma build_cases st :
  _build_audio_formats_dict E st =
    match subprocess_run E ["ffmpeg"; "-version"] with
    | None => (Raise FFmpegNotInstalledError, st)
    | Some _ =>
        match subprocess_run E ["ffmpeg"; "-formats"] with
        | None => (Raise FFmpegExecutionError, st)
        | Some stdout => (Ok (parse_formats stdout), st)
        end
    end.
Proof.
  unfold _build_audio_formats_dict, _verify_ffmpeg_installation.
  destruct (subprocess_run E ["ffmpeg"; "-version"]); [|reflexivity].
  destruct (subprocess_run E ["ffmpeg"; "-formats"]); reflexivity.
Qed.

Lemma save_cases st p :
  _save_audio_formats_dict E p st =
    match subprocess_run E ["ffmpeg"; "-version"] with
    | None => (Raise FFmpegNotInstalledError, st)
    | Some _ =>
        match subprocess_run E ["ffmpeg"; "-formats"] with
        | None => (Raise FFmpegExecutionError, st)
        | Some stdout =>
            if dir_exists E st (parent p)
            then (Ok tt,
                  set_fs E
                    (<[p := json_dump E (parse_formats stdout)]> (fs E st))
                    st)
            else (Raise (FileNotFoundError p), st)
        end
    end.
Proof.
  unfold _save_audio_formats_dict, mbind, M_bind, bind.
  rewrite build_cases.
  destruct (subprocess_run E ["ffmpeg"; "-version"]); [|reflexivity].
  destruct (subprocess_run E ["ffmpeg"; "-formats"]); [|reflexivity].
  unfold write_file. by destruct (dir_exists E st (parent p)).
Qed.

Lemma save_keeps_memo st p r st' :
  _save_audio_formats_dict E p st = (r, st') ->
  formats_cache E st' = formats_cache E st.
Proof.
  rewrite save_cases.
  destruct (subprocess_run E ["ffmpeg"; "-version"]).
  - destruct (subprocess_run E ["ffmpeg"; "-formats"]).
    + destruct (dir_exists E st (parent p)); by intros [= <- <-].
    + by intros [= <- <-].
  - by intros [= <- <-].
Qed.

Lemma load_Raise st arg e st' :
  _load_audio_formats_dict E arg st = (Raise e, st') ->
  memo_key E st <> Some arg /\
  load_uncached E (default AUDIO_FORMATS_SAVE_PATH arg) st = (Raise e, st').
Proof.
  intros H.
  assert (Hmiss : memo_key E st <> Some arg).
  { unfold memo_key. intros Hk.
    destruct (formats_cache E st) as [[key data]|] eqn:Hc; [|done].
    simpl in Hk. injection Hk as ->.
    by rewrite (load_hit E st arg data Hc) in H. }
  split; [done|]. rewrite load_miss in H by done.
  destruct (load_uncached E _ st) as [[d|e'] s]; simpl in H; [done|].
  by injection H as <- <-.
Qed.

Lemma load_uncached_fs st p r st' :
  load_uncached E p st = (r, st') ->
  fs E st' = fs E st /\ model_cache E st' = model_cache E st.
Proof.
  destruct (fs E st !! p) as [text|] eqn:Hp.
  - rewrite (load_uncached_present E st p text Hp).
    destruct (json_load E text); by intros [= <- <-].
  - rewrite (load_uncached_absent E st p Hp). by intros [= <- <-].
Qed.

Lemma load_fs st arg r st' :
  _load_audio_formats_dict E arg st = (r, st') ->
  fs E st' = fs E st /\ model_cache E st' = model_cache E st.
Proof.
  unfold _load_audio_formats_dict.
  assert (Hmiss : forall r st',
    memoize E arg (load_uncached E (default AUDIO_FORMATS_SAVE_PATH arg) st)
      = (r, st') ->
    fs E st' = fs E st /\ model_cache E st' = model_cache E st).
  { intros r0 s0.
    destruct (load_uncached E _ st) as [[d|e] s] eqn:Hl;
      apply load_uncached_fs in Hl; simpl; by intros [= <- <-]. }
  destruct (formats_cache E st) as [[key data]|]; [|apply Hmiss].
  destruct (decide (key = arg)); [by intros [= <- <-] | apply Hmiss].
Qed.

End RegistryFile.





(** X8: saving the registry does not refresh the loader: after a
    successful load, a save to any path (also to the path that was loaded)
    leaves the next load with the same argument returning the dictionary
    loaded before, without opening the new file. *)
Theorem X8_save_does_not_refresh_the_memo (E : Externals)
    (st st1 st2 : state E) (arg : option path)
    (data : gmap string (list bool)) (save_path : path) (r : res unit) :
  _load_audio_formats_dict E arg st = (Ok data, st1) ->
  _save_audio_formats_dict E save_path st1 = (r, st2) ->
  _load_audio_formats_dict E arg st2 = (Ok data, st2).
Proof.
  intros Hload Hsave. apply load_hit.
  rewrite (save_keeps_memo E st1 save_path r st2 Hsave).
  by eapply load_Ok_cached.
Qed.

Lemma X8_stale_memo_witness :
  let E := sample_externals "DE  wav,wave  WAV format" SIX_SOURCES in
  let p := Path "audio_formats.json" in
  let st := fresh E {[ p := "{wav: [true, true]}" ]} in
  let st1 := set_formats_cache E
               (Some (Some p, {[ "wav" := [true; true] ]}))
               (log_open E p st) in
  let st2 := set_fs E (<[p := "{}"]> (fs E st1)) st1 in
  _load_audio_formats_dict E (Some p) st2
    = (Ok {[ "wav" := [true; true] ]}, st2).
Proof.
  intros E p st st1 st2.
  apply (X8_save_does_not_refresh_the_memo E st st1 st2 (Some p) _ p (Ok tt)).
  - load_from_disk p "{wav: [true, true]}".
  - rewrite save_cases. reflexivity.
Defined.

(** X9: a load that raises stores nothing: the disk and the memo are as
    before, the call was not answered from the memo, and the next call
    with the same argument runs the loader again. *)
Theorem X9_failed_load_is_not_memoised (E : Externals) (st st1 : state E)
    (arg : option path) (e : exn) :
  _load_audio_formats_dict E arg st = (Raise e, st1) ->
  fs E st1 = fs E st /\
  formats_cache E st1 = formats_cache E st /\
  memo_key E st <> Some arg /\
  _load_audio_formats_dict E arg st1 =
    memoize E arg
      (load_uncached E (default AUDIO_FORMATS_SAVE_PATH arg) st1).
Proof.
  intros H. destruct (load_Raise E st arg e st1 H) as [Hmiss Hraw].
  destruct (load_uncached_fs E st _ _ _ Hraw) as [Hfs _].
  pose proof (load_uncached_cache E st _ _ _ Hraw) as Hc.
  split; [done|]. split; [done|]. split; [done|].
  apply load_miss. unfold memo_key in *. by rewrite Hc.
Qed.

Lemma X9_failed_load_witness :
  let E := sample_externals "" SIX_SOURCES in
  let st := fresh E ∅ in
  fs E st = fs E st /\
  formats_cache E st = formats_cache E st /\
  memo_key E st <> Some None /\
  _load_audio_formats_dict E None st =
    memoize E None
      (load_uncached E (default AUDIO_FORMATS_SAVE_PATH None) st).
Proof.
  intros E st.
  apply (X9_failed_load_is_not_memoised E st st None
           (FileNotFoundError AUDIO_FORMATS_SAVE_PATH)).
  rewrite load_miss by (vm_compute; congruence).
  rewrite load_uncached_absent by reflexivity. reflexivity.
Defined.

Section Validate.

Context (E : Externals).
Implicit Types (st : state E) (supported : gmap string (list bool)).

Lemma validate_loaded st st' supported i ip o op :
  _load_audio_formats_dict E None st = (Ok supported, st') ->
  _validate_audio_formats E i ip o op st =
    check_formats E supported i ip o op st'.
Proof.
  intros H. unfold _validate_audio_formats, mbind, M_bind, bind.
  by rewrite H.
Qed.

Lemma validate_load_fails st st' e i ip o op :
  _load_audio_formats_dict E None st = (Raise e, st') ->
  _validate_audio_formats E i ip o op st = (Raise e, st').
Proof.
  intros H. unfold _validate_audio_formats, mbind, M_bind, bind.
  by rewrite H.
Qed.

(** The outcome of the checks, by cases on the two entries. *)
Lemma check_formats_cases supported i ip o op st :
  check_formats E supported i ip o op st =
    (match supported !! i with
     | None => Raise (AudioFormatUnsupportedError i ip)
     | Some fi =>
         match fi !! 0 with
         | None => Raise IndexError
         | Some false => Raise (AudioDemuxingError i ip)
         | Some true =>
             match supported !! o with
             | None => Raise (AudioFormatUnsupportedError o op)
             | Some fo =>
                 match fo !! 1 with
                 | None => Raise IndexError
                 | Some false => Raise (AudioMuxingError o op)
                 | Some true => Ok tt
                 end
             end
         end
     end, st).
Proof.
  unfold check_formats, getitem, mbind, M_bind, bind, raise, ret.
  destruct (supported !! i) as [fi|]; [|done].
  destruct (fi !! 0) as [[|]|]; [|done|done].
  destruct (supported !! o) as [fo|]; [|done].
  by destruct (fo !! 1) as [[|]|].
Qed.

End Validate.

(** X10: once the dictionary is loaded, validation succeeds only for a
    known, decodable input format and a known, encodable output format:
    it returns normally exactly when both entries are present with the
    decode flag of the input and the encode flag of the output true. *)
Theorem X10_validate_succeeds_iff_both_supported (E : Externals)
    (st st' : state E) (supported : gmap string (list bool))
    (i : string) (ip : path) (o : string) (op : path) :
  _load_audio_formats_dict E None st = (Ok supported, st') ->
  (exists st'', _validate_audio_formats E i ip o op st = (Ok tt, st'')) <->
  (exists fi fo : list bool,
     supported !! i = Some fi /\ fi !! 0 = Some true /\
     supported !! o = Some fo /\ fo !! 1 = Some true).
Proof.
  intros Hload. rewrite (validate_loaded E st st' supported i ip o op Hload).
  rewrite check_formats_cases.
  destruct (supported !! i) as [fi|].
  2:{ split; [by intros (? & [=]) | by intros (? & ? & [=] & _)]. }
  destruct (fi !! 0) as [[|]|] eqn:Hfi.
  2:{ split; [by intros (? & [=])|].
      intros (? & ? & [= <-] & H & _). congruence. }
  2:{ split; [by intros (? & [=])|].
      intros (? & ? & [= <-] & H & _). congruence. }
  destruct (supported !! o) as [fo|].
  2:{ split; [by intros (? & [=]) | by intros (? & ? & _ & _ & [=] & _)]. }
  destruct (fo !! 1) as [[|]|] eqn:Hfo.
  - split; [|eauto]. intros _. by exists fi, fo.
  - split; [by intros (? & [=])|].
    intros (? & ? & _ & _ & [= <-] & H). congruence.
  - split; [by intros (? & [=])|].
    intros (? & ? & _ & _ & [= <-] & H). congruence.
Qed.

Lemma X10_validate_witness :
  let E := sample_externals "" SIX_SOURCES in
  let p := Path "song.mp3" in
  let st := set_formats_cache E
              (Some (None, {[ "mp3" := [true; false] ]})) (fresh E ∅) in
  (exists st'', _validate_audio_formats E "mp3" p "mp3" p st = (Ok tt, st''))
  <-> (exists fi fo : list bool,
         ({[ "mp3" := [true; false] ]} : gmap string (list bool)) !! "mp3"
           = Some fi /\ fi !! 0 = Some true /\
         ({[ "mp3" := [true; false] ]} : gmap string (list bool)) !! "mp3"
           = Some fo /\ fo !! 1 = Some true).
Proof.
  intros E p st.
  apply (X10_validate_succeeds_iff_both_supported E st st).
  reflexivity.
Defined.

(** X11: validation raises [IndexError] exactly when an entry it has to
    read is too short: the input entry is empty, or the input is decodable
    and the output entry has fewer than two flags.  On a dictionary whose
    entries all have two flags, as every dictionary built from a listing
    has, it never does. *)
Theorem X11_validate_index_error_iff_short_entry (E : Externals)
    (st st' : state E) (supported : gmap string (list bool))
    (i : string) (ip : path) (o : string) (op : path) :
  _load_audio_formats_dict E None st = (Ok supported, st') ->
  ((exists st'',
      _validate_audio_formats E i ip o op st = (Raise IndexError, st''))
   <->
   (supported !! i = Some [] \/
    exists fi fo : list bool,
      supported !! i = Some fi /\ fi !! 0 = Some true /\
      supported !! o = Some fo /\ length fo < 2)) /\
  (two_flags supported ->
   forall st'',
     _validate_audio_formats E i ip o op st <> (Raise IndexError, st'')) /\
  (forall stdout, two_flags (parse_formats stdout)).
Proof.
  intros Hload.
  assert (Hiff :
    (exists st'',
       _validate_audio_formats E i ip o op st = (Raise IndexError, st''))
    <->
    (supported !! i = Some [] \/
     exists fi fo : list bool,
       supported !! i = Some fi /\ fi !! 0 = Some true /\
       supported !! o = Some fo /\ length fo < 2)).
  { rewrite (validate_loaded E st st' supported i ip o op Hload).
    rewrite check_formats_cases.
    destruct (supported !! i) as [fi|].
    2:{ split; [by intros (? & [=])|].
        intros [[=]|(? & ? & [=] & _)]. }
    destruct (fi !! 0) as [[|]|] eqn:Hfi.
    - destruct (supported !! o) as [fo|].
      2:{ split; [by intros (? & [=])|].
          intros [[= ->]|(? & ? & _ & _ & [=] & _)]. done. }
      destruct (fo !! 1) as [[|]|] eqn:Hfo.
      + split; [by intros (? & [=])|].
        intros [[= ->]|(? & ? & _ & _ & [= <-] & Hlen)]; [done|].
        apply lookup_lt_Some in Hfo. lia.
      + split; [by intros (? & [=])|].
        intros [[= ->]|(? & ? & _ & _ & [= <-] & Hlen)]; [done|].
        apply lookup_lt_Some in Hfo. lia.
      + split; [|eauto]. intros _. right. exists fi, fo.
        apply lookup_ge_None in Hfo. repeat split; [done | lia].
    - split; [by intros (? & [=])|].
      intros [[= ->]|(? & ? & [= <-] & H & _)]; [done | congruence].
    - split; [|eauto]. intros _. left.
      apply lookup_ge_None in Hfi. destruct fi; [done | simpl in Hfi; lia]. }
  split; [exact Hiff|]. split.
  - intros Htwo st'' Hrun.
    destruct (proj1 Hiff (ex_intro _ st'' Hrun))
      as [Hi|(fi & fo & _ & _ & Ho & Hlen)].
    + apply Htwo in Hi. simpl in Hi. lia.
    + apply Htwo in Ho. lia.
  - intros stdout k v Hk. unfold parse_formats in Hk.
    apply parse_lines_origin in Hk as [Hk|(line & _ & Hal & ->)].
    + by rewrite lookup_empty in Hk.
    + destruct (line_flags_matches line (line_aliases_matches line k Hal))
        as (d & e & ->). simpl. lia.
Qed.

Lemma X11_index_error_witness :
  let E := sample_externals "" SIX_SOURCES in
  let p := Path "song.mp3" in
  let st := set_formats_cache E
              (Some (None, {[ "mp3" := [] ]})) (fresh E ∅) in
  exists st'',
    _validate_audio_formats E "mp3" p "wav" p st = (Raise IndexError, st'').
Proof.
  intros E p st.
  apply (proj1 (X11_validate_index_error_iff_short_entry E st st
                  {[ "mp3" := [] ]} "mp3" p "wav" p eq_refl)).
  left. reflexivity.
Defined.

(** X12: validation never writes: whatever it returns or raises, the disk
    and the loaded model are as before; only the loader's memo and the log
    of opened files can change. *)
Theorem X12_validate_never_writes (E : Externals) (st st' : state E)
    (i : string) (ip : path) (o : string) (op : path) (r : res unit) :
  _validate_audio_formats E i ip o op st = (r, st') ->
  fs E st' = fs E st /\ model_cache E st' = model_cache E st.
Proof.
  destruct (_load_audio_formats_dict E None st) as [[supported|e] s] eqn:Hl.
  - rewrite (validate_loaded E st s supported i ip o op Hl).
    intros Hc. apply check_formats_state in Hc as ->.
    by eapply load_fs.
  - rewrite (validate_load_fails E st s e i ip o op Hl).
    intros [= <- <-]. by eapply load_fs.
Qed.

Lemma X12_validate_never_writes_witness :
  let E := sample_externals "" SIX_SOURCES in
  let st := fresh E ∅ in
  fs E st = fs E st /\ model_cache E st = model_cache E st.
Proof.
  intros E st.
  apply (X12_validate_never_writes E st st "mp3" (Path "a.mp3")
           "wav" (Path "a.wav")
           (Raise (FileNotFoundError AUDIO_FORMATS_SAVE_PATH))).
  apply validate_load_fails.
  rewrite load_miss by (vm_compute; congruence).
  rewrite load_uncached_absent by reflexivity. reflexivity.
Defined.



(** ** Failure modes and composition of the conversion *)

Section ConvertMore.

Context (E : Externals).
Implicit Types (st : state E) (p : path).


Lemma removelast_Forall {A} (P : A -> Prop) (l : list A) :
  Forall P l -> Forall P (removelast l).
Proof.
  induction 1 as [|x l Hx Hl IH]; [constructor|].
  simpl. destruct l; [constructor | by constructor].
Qed.

(** The canonical sibling of a well-formed path is well formed. *)
Lemma sibling_wf p out :
  wf_path p -> with_suffix p ".wav" = Some out -> wf_path out.
Proof.
  intros Hwf (Hn & ->)%with_suffix_Some. unfold wf_path. cbn [tail].
  apply Forall_app. split; [by apply removelast_Forall|].
  constructor; [|constructor].
  assert (Hfree : free_of "/"%char (stem p +:+ ".wav")).
  { apply free_of_app; [by apply stem_free | reflexivity]. }
  split; [|done].
  assert (Hlen : 4 <= String.length (stem p +:+ ".wav")).
  { rewrite L_length, L_app, length_app. simpl length. lia. }
  unfold keep_part. apply andb_true_iff.
  split; apply negb_true_iff, eqb_string_false; intros Heq;
    rewrite Heq in Hlen; simpl in Hlen; lia.
Qed.




End ConvertMore.



(** X15: converting twice is converting once: whatever the first call
    does, returning or raising, a second conversion of the path it returns
    changes nothing and returns the same path. *)
Theorem X15_convert_twice_is_convert_once (E : Externals) (st : state E)
    (p : path) (keep keep' : bool) :
  (out ← convert_to_wav E p keep; convert_to_wav E out keep') st
    = convert_to_wav E p keep st.
Proof.
  unfold mbind, M_bind, bind.
  destruct (convert_to_wav E p keep st) as [[out|e] st'] eqn:Hrun; [|done].
  apply convert_canonical.
  apply convert_returns in Hrun as [[Hc ->]|[_ Hout]]; [done|].
  apply sibling_facts in Hout as (-> & _). reflexivity.
Qed.

(** X16: a path returned by [convert_to_wav] for a well-formed input is
    well formed again (no component is empty, a lone dot or holds a
    slash). *)
Theorem X16_convert_returns_well_formed_path (E : Externals)
    (st st' : state E) (p out : path) (keep : bool) :
  wf_path p ->
  convert_to_wav E p keep st = (Ok out, st') ->
  wf_path out.
Proof.
  intros Hwf Hrun.
  apply convert_returns in Hrun as [[_ ->]|[_ Hout]]; [done|].
  by eapply sibling_wf.
Qed.

Lemma X16_convert_well_formed_witness :
  wf_path (mk_path "" ["music"; "song.wav"]).
Proof.
  set (E := sample_externals "" SIX_SOURCES).
  set (p := Path "music/song.mp3").
  set (st := fresh E {[ p := "mpeg" ]}).
  apply (X16_convert_returns_well_formed_path E st
           (set_fs E (<[mk_path "" ["music"; "song.wav"] := "RIFFmpeg"]>
                        (fs E st)) (log_open E p st))
           p (mk_path "" ["music"; "song.wav"]) true).
  - apply Path_wf.
  - rewrite (convert_run E st p true "mpeg" "mpeg"
               (mk_path "" ["music"; "song.wav"])).
    + reflexivity.
    + vm_compute. congruence.
    + vm_compute. reflexivity.
    + vm_compute. reflexivity.
    + reflexivity.
Defined.

(** ** Failure modes and composition of the isolation *)

Section IsolateMore.

Context (E : Externals).
Implicit Types (st : state E) (p : path).

Lemma track_path_snoc p (track : string) :
  wf_path p -> free_of "/"%char track ->
  joinpath (parent p) (stem p +:+ "_" +:+ track +:+ ".wav") =
    mk_path (root (parent p))
            (tail (parent p) ++ [stem p +:+ "_" +:+ track +:+ ".wav"]).
Proof.
  intros Hwf Htrack.
  destruct (new_filename_component (stem p) track (stem_free p Hwf) Htrack)
    as [Hfree Hkeep].
  unfold joinpath. rewrite startswith_free by done.
  by rewrite parse_tail_single.
Qed.

Lemma parent_wf p : wf_path p -> wf_path (parent p).
Proof.
  intros Hwf. unfold parent. destruct (tail p) eqn:Ht; [done|].
  unfold wf_path. cbn [tail]. rewrite <- Ht. by apply removelast_Forall.
Qed.

(** Where the track of a well-formed input goes. *)
Lemma track_path_facts p (track : string) :
  wf_path p -> free_of "/"%char track ->
  let out := joinpath (parent p) (stem p +:+ "_" +:+ track +:+ ".wav") in
  parent out = parent p /\
  name out = stem p +:+ "_" +:+ track +:+ ".wav" /\
  out <> p /\ wf_path out.
Proof.
  intros Hwf Htrack out. unfold out. rewrite track_path_snoc by done.
  split; [apply parent_snoc|]. split; [apply name_snoc|]. split.
  - intros Heq. apply (f_equal name) in Heq. rewrite name_snoc in Heq.
    by apply (name_not_stem_underscore p (track +:+ ".wav")).
  - unfold wf_path. cbn [tail]. apply Forall_app.
    split; [by apply parent_wf|].
    destruct (new_filename_component (stem p) track (stem_free p Hwf) Htrack)
      as [Hfree Hkeep].
    by repeat constructor.
Qed.

Lemma isolate_absent st p :
  fs E st !! p = None ->
  isolate_guitar E p st = (Raise RuntimeError, st).
Proof.
  intros Hp. unfold isolate_guitar, torchaudio_load, mbind, M_bind, bind.
  by rewrite Hp.
Qed.

Lemma isolate_undecodable st p bytes :
  fs E st !! p = Some bytes -> torchaudio_decode E bytes = None ->
  isolate_guitar E p st = (Raise RuntimeError, log_open E p st).
Proof.
  intros Hp Hd. unfold isolate_guitar, torchaudio_load, mbind, M_bind, bind.
  by rewrite Hp, Hd.
Qed.

(** What a successful isolation went through. *)
Lemma isolate_Ok_inv st p out st1 :
  isolate_guitar E p st = (Ok out, st1) ->
  exists bytes waveform rate stems k g track_bytes,
    fs E st !! p = Some bytes /\
    torchaudio_decode E bytes = Some (waveform, rate) /\
    apply_model (current_model E st) waveform (randint E (random_state E st))
      = Ok stems /\
    list_index "guitar" (sources (current_model E st)) = Some k /\
    stems !! k = Some g /\
    torchaudio_encode E (squeeze0 E g) rate = Some track_bytes /\
    out = joinpath (parent p) (stem p +:+ "_" +:+ "guitar" +:+ ".wav") /\
    st1 = set_fs E (<[out := track_bytes]> (fs E st))
            (set_random_state E (S (random_state E st))
               (set_model_cache E (Some (current_model E st))
                  (log_open E p st))).
Proof.
  intros Hrun.
  destruct (fs E st !! p) as [bytes|] eqn:Hp.
  2:{ by rewrite isolate_absent in Hrun. }
  destruct (torchaudio_decode E bytes) as [[waveform rate]|] eqn:Hd.
  2:{ by rewrite (isolate_undecodable st p bytes) in Hrun. }
  rewrite (isolate_guitar_run E st p bytes waveform rate Hp Hd) in Hrun.
  cbv zeta in Hrun.
  destruct (apply_model (current_model E st) waveform
              (randint E (random_state E st))) as [stems|e] eqn:Hm; [|done].
  destruct (list_index "guitar" (sources (current_model E st)))
    as [k|] eqn:Hk; [|done].
  destruct (stems !! k) as [g|] eqn:Hg; [|done].
  rewrite save_run in Hrun. cbv zeta in Hrun.
  destruct (torchaudio_encode E (squeeze0 E g) rate)
    as [track_bytes|] eqn:Henc; [|done].
  match type of Hrun with
  | (if ?c then _ else _) = _ => destruct c; [|done]
  end.
  injection Hrun as <- <-.
  exists bytes, waveform, rate, stems, k, g, track_bytes. done.
Qed.

End IsolateMore.

(** X17: whenever [isolate_guitar] returns for a well-formed input path,
    the path it returns is the input's sibling named by the input's stem
    followed by [_guitar.wav]; it differs from the input, is well formed,
    and is the only file written: the input and every other file are as
    before.  The model it used is left in the memo. *)
Theorem X17_isolate_guitar_outcome (E : Externals) (st st1 : state E)
    (audio_path out : path) :
  wf_path audio_path ->
  isolate_guitar E audio_path st = (Ok out, st1) ->
  parent out = parent audio_path /\
  name out = stem audio_path +:+ "_guitar.wav" /\
  out <> audio_path /\ wf_path out /\
  is_Some (fs E st1 !! out) /\
  (forall q, q <> out -> fs E st1 !! q = fs E st !! q) /\
  model_cache E st1 = Some (current_model E st) /\
  formats_cache E st1 = formats_cache E st.
Proof.
  intros Hwf
    (bytes & w & rate & stems & k & g & tb & Hp & Hd & Hm & Hk & Hg & Henc
       & Hout & ->)%isolate_Ok_inv.
  destruct (track_path_facts audio_path "guitar" Hwf eq_refl)
    as (Hpar & Hname & Hne & Hwf').
  cbv zeta in Hpar, Hname, Hne, Hwf'. rewrite <- Hout in Hpar, Hname, Hne, Hwf'.
  split; [done|]. split; [done|]. split; [done|]. split; [done|].
  cbn [fs set_fs set_model_cache set_random_state log_open model_cache
       formats_cache].
  split; [rewrite lookup_insert_eq; eauto|].
  split; [|done]. intros q Hq. by rewrite lookup_insert_ne.
Qed.

Lemma X17_isolate_outcome_witness :
  let E := sample_externals "" SIX_SOURCES in
  let p := Path "music/song.wav" in
  let out := Path "music/song_guitar.wav" in
  let st := fresh E {[ p := "pcm" ]} in
  let st1 := set_fs E (<[out := "RIFFguitar:pcm"]> (fs E st))
               (set_random_state E 1
                  (set_model_cache E (Some (current_model E st))
                     (log_open E p st))) in
  parent out = parent p /\
  name out = stem p +:+ "_guitar.wav" /\
  out <> p /\ wf_path out /\
  is_Some (fs E st1 !! out) /\
  (forall q, q <> out -> fs E st1 !! q = fs E st !! q) /\
  model_cache E st1 = Some (current_model E st) /\
  formats_cache E st1 = formats_cache E st.
Proof.
  intros E p out st st1.
  apply (X17_isolate_guitar_outcome E st st1 p out).
  - apply Path_wf.
  - vm_compute. reflexivity.
Defined.

(** X18: [isolate_guitar] reads the audio before it asks for the model:
    with no file at the path, or with a file that does not decode, it
    raises the [RuntimeError] of the audio backend, and in both cases the
    model is not loaded, no random shift is drawn and no file is
    written. *)
Theorem X18_isolate_fails_before_loading_model (E : Externals)
    (st : state E) (audio_path : path) :
  (fs E st !! audio_path = None ->
   isolate_guitar E audio_path st = (Raise RuntimeError, st)) /\
  (forall bytes,
     fs E st !! audio_path = Some bytes ->
     torchaudio_decode E bytes = None ->
     exists st',
       isolate_guitar E audio_path st = (Raise RuntimeError, st') /\
       fs E st' = fs E st /\ model_cache E st' = model_cache E st /\
       random_state E st' = random_state E st).
Proof.
  split.
  - apply isolate_absent.
  - intros bytes Hp Hd. eexists. split.
    + by eapply isolate_undecodable.
    + done.
Qed.


